(** * gmail-order-tracker: the e-mail matching and classification pipeline

    A shallow embedding of [check_orders.py]: status classification
    ([detect_status]), tracking extraction ([detect_tracking] and the five
    carrier patterns), message decoding ([dec], [html_to_text], [get_body]),
    the mailbox search ([search_latest_for_order]) and the driver loop of
    [main].

    Text.  A Python [str] is modelled as a [string] whose characters are the
    code points U+0000..U+00FF; the character tables below ([is_word],
    [is_space], [is_digit], [lower]) are CPython's Unicode tables on that
    range.  A [bytes] value is a [list byte].

    Exceptions.  Code that can raise is written in the [result] monad; a
    [try: return ... except: pass] of the source is [try_return]. *)

From Stdlib Require Import Bool Arith Lia List.
From Stdlib Require Import Strings.Ascii Strings.String Strings.Byte.
Import ListNotations.
Open Scope string_scope.

Set Implicit Arguments.

(** ** Characters *)

Definition code (c : ascii) : nat := nat_of_ascii c.

Definition in_range (lo hi : nat) (c : ascii) : bool :=
  ((lo <=? code c) && (code c <=? hi))%nat.

(** [str.isupper] on one character of the range: A-Z, U+00C0..U+00D6 and
    U+00D8..U+00DE are the characters that [str.lower] changes. *)
Definition is_upper (c : ascii) : bool :=
  in_range 65 90 c || in_range 192 214 c || in_range 216 222 c.

Definition lower_char (c : ascii) : ascii :=
  if is_upper c then ascii_of_nat (code c + 32) else c.

(** [\d] of a [str] pattern: the decimal digits of the range. *)
Definition is_digit (c : ascii) : bool := in_range 48 57 c.

(** [\w] of a [str] pattern: alphanumerics of the range and the underscore. *)
Definition is_word (c : ascii) : bool :=
  in_range 48 57 c || in_range 65 90 c || in_range 95 95 c ||
  in_range 97 122 c || in_range 170 170 c || in_range 178 179 c ||
  in_range 181 181 c || in_range 185 186 c || in_range 188 190 c ||
  in_range 192 214 c || in_range 216 246 c || in_range 248 255 c.

(** [\s] of a [str] pattern, also the characters removed by [str.strip()]. *)
Definition is_space (c : ascii) : bool :=
  in_range 9 13 c || in_range 28 32 c || in_range 133 133 c ||
  in_range 160 160 c.

(** ** Strings *)

(** [str.lower()] *)
Fixpoint lower (s : string) : string :=
  match s with
  | EmptyString => EmptyString
  | String c s' => String (lower_char c) (lower s')
  end.

(** [h in s] *)
Fixpoint contains (h s : string) : bool :=
  prefix h s ||
  match s with
  | EmptyString => false
  | String _ s' => contains h s'
  end.

(** [any(h in s for h in hints)] *)
Definition any_in (hints : list string) (s : string) : bool :=
  existsb (fun h => contains h s) hints.

(** The specification of [contains]. *)
Definition Substring (h s : string) : Prop :=
  exists pre post, s = pre ++ h ++ post.

(** [bool(s)] of a string *)
Definition nonempty (s : string) : bool :=
  match s with EmptyString => false | String _ _ => true end.

(** ** Status classifier *)

Definition STATUS_HINTS (key : string) : list string :=
  if key =? "delivered" then
    [" delivered "; " has been delivered"; "was delivered"; "delivered on"]
  else if key =? "shipped" then
    [" shipped "; " on the way "; " out for delivery "; " has shipped "]
  else if key =? "pending" then
    [" order confirmed "; " order confirmation "; " thanks for your order ";
     " placed "]
  else [].

(** The string [s] of [detect_status]. *)
Definition status_text (subject body : string) : string :=
  " " ++ lower subject ++ " " ++ lower body ++ " ".

Definition detect_status (subject body : string) (has_tracking : bool)
  : string :=
  let s := status_text subject body in
  if any_in (STATUS_HINTS "delivered") s then "Delivered"
  else if has_tracking || any_in (STATUS_HINTS "shipped") s then "Shipped"
  else if any_in (STATUS_HINTS "pending") s then "Pending"
  else if contains "order confirmation" s || contains "placed" s then "Pending"
  else "Pending".

(** The decision list as section 4.4 of the specification words it: the
    phrases are looked for in the subject and in the body, without regard
    to case. *)
Definition spec_delivered_phrases : list string :=
  ["delivered"; "has been delivered"; "was delivered"; "delivered on"].
Definition spec_shipped_phrases : list string :=
  ["shipped"; "on the way"; "out for delivery"; "has shipped"].
Definition spec_pending_phrases : list string :=
  ["order confirmed"; "order confirmation"; "thanks for your order"; "placed"].

Definition spec_mentions (phrases : list string) (subject body : string)
  : bool :=
  existsb (fun h => contains h (lower subject) || contains h (lower body))
          phrases.

Definition spec_detect_status (subject body : string) (has_tracking : bool)
  : string :=
  if spec_mentions spec_delivered_phrases subject body then "Delivered"
  else if has_tracking || spec_mentions spec_shipped_phrases subject body
       then "Shipped"
  else if spec_mentions spec_pending_phrases subject body then "Pending"
  else "Pending".


(** ** Regular expressions

    The fragment of [re] that the source's patterns use: a pattern is a
    sequence of items, each a word boundary, a literal character or a greedy
    repetition of a character set; matching backtracks as [re] does. *)

Inductive cset : Type :=
| Digit                                   (* \d *)
| Space                                   (* \s *)
| Ranges (rs : list (ascii * ascii))      (* [a-b...] *)
| NoneOf (cs : list ascii).               (* [^...] *)

Inductive item : Type :=
| WordBoundary                                      (* \b *)
| Lit (c : ascii)                                   (* c *)
| Rep (cs : cset) (lo : nat) (hi : option nat).     (* cs{lo,hi}, cs+ *)

Record regex : Type := Regex { ignorecase : bool; items : list item }.

Definition all_chars : list ascii := map ascii_of_nat (seq 0 256).

Definition in_ranges (rs : list (ascii * ascii)) (c : ascii) : bool :=
  existsb (fun r => in_range (code (fst r)) (code (snd r)) c) rs.

(** Under [re.I] the character of the text is lower-cased and looked up in
    the set of the lower-cased members. *)
Definition cset_mem (ic : bool) (cs : cset) (a : ascii) : bool :=
  match cs with
  | Digit => is_digit a
  | Space => is_space a
  | Ranges rs =>
      if ic
      then existsb (fun c => in_ranges rs c &&
                             Ascii.eqb (lower_char c) (lower_char a)) all_chars
      else in_ranges rs a
  | NoneOf cs => negb (existsb (Ascii.eqb a) cs)
  end.

Definition lit_eq (ic : bool) (c a : ascii) : bool :=
  if ic then Ascii.eqb (lower_char c) (lower_char a) else Ascii.eqb c a.

Definition word_opt (c : option ascii) : bool :=
  match c with Some a => is_word a | None => false end.

Definition head (s : string) : option ascii :=
  match s with String a _ => Some a | EmptyString => None end.

(** [\b]: exactly one of the two neighbours is a word character. *)
Definition at_boundary (prev : option ascii) (s : string) : bool :=
  xorb (word_opt prev) (word_opt (head s)).

Definition can_take (hi : option nat) : bool :=
  match hi with Some 0 => false | _ => true end.

(** Greedy repetition followed by the continuation [k]: take a character
    while the set and the upper bound allow it, and give characters back one
    at a time, down to the lower bound, until [k] succeeds. *)
Fixpoint repeat_greedy (mem : ascii -> bool)
         (k : option ascii -> string -> option string)
         (lo : nat) (hi : option nat) (prev : option ascii) (s : string)
         {struct s} : option string :=
  let stop := if Nat.eqb lo 0 then k prev s else None in
  match s with
  | String a s' =>
      if mem a && can_take hi then
        match repeat_greedy mem k (pred lo) (option_map pred hi) (Some a) s'
        with
        | Some m => Some (String a m)
        | None => stop
        end
      else stop
  | EmptyString => stop
  end.

(** The text matched by the items at this position, [prev] being the
    character before it. *)
Fixpoint match_here (ic : bool) (its : list item) (prev : option ascii)
         (s : string) {struct its} : option string :=
  match its with
  | [] => Some ""
  | WordBoundary :: r =>
      if at_boundary prev s then match_here ic r prev s else None
  | Lit c :: r =>
      match s with
      | String a s' =>
          if lit_eq ic c a
          then option_map (String a) (match_here ic r (Some a) s')
          else None
      | EmptyString => None
      end
  | Rep cs lo hi :: r =>
      repeat_greedy (cset_mem ic cs) (match_here ic r) lo hi prev s
  end.

Definition match_at (rx : regex) : option ascii -> string -> option string :=
  match_here (ignorecase rx) (items rx).

(** [rx.search(s)], as [m.group(0)]: the match at the leftmost position
    that has one. *)
Fixpoint search_from (rx : regex) (prev : option ascii) (s : string)
  : option string :=
  match match_at rx prev s with
  | Some m => Some m
  | None =>
      match s with
      | String a s' => search_from rx (Some a) s'
      | EmptyString => None
      end
  end.

Definition search (rx : regex) (s : string) : option string :=
  search_from rx None s.

(** [re.sub(rx, repl, s)] for a literal replacement: [skip] counts the
    characters of the current match still to be dropped. *)
Fixpoint sub_from (rx : regex) (repl : string) (skip : nat)
         (prev : option ascii) (s : string) {struct s} : string :=
  match skip with
  | S n =>
      match s with
      | String a s' => sub_from rx repl n (Some a) s'
      | EmptyString => ""
      end
  | O =>
      match match_at rx prev s with
      | Some m =>
          repl ++
          match s with
          | String a s' =>
              match String.length m with
              | O => String a (sub_from rx repl 0 (Some a) s')
              | S n => sub_from rx repl n (Some a) s'
              end
          | EmptyString => ""
          end
      | None =>
          match s with
          | String a s' => String a (sub_from rx repl 0 (Some a) s')
          | EmptyString => ""
          end
      end
  end.

Definition re_sub (rx : regex) (repl s : string) : string :=
  sub_from rx repl 0 None s.

(** ** Tracking extractor *)

Definition alnum_upper : cset := Ranges [("0", "9"); ("A", "Z")]%char.

Definition RE_UPS : regex :=
  Regex true [WordBoundary; Lit "1"; Lit "Z"; Rep alnum_upper 16 (Some 16);
              WordBoundary].
Definition RE_USPS : regex :=
  Regex false [WordBoundary; Lit "9"; Rep Digit 21 (Some 22); WordBoundary].
Definition RE_FEDEX : regex :=
  Regex false [WordBoundary; Rep Digit 12 (Some 22); WordBoundary].
Definition RE_DHL : regex :=
  Regex false [WordBoundary; Rep Digit 10 (Some 10); WordBoundary].
Definition RE_TBA : regex :=
  Regex true [WordBoundary; Lit "T"; Lit "B"; Lit "A";
              Rep alnum_upper 1 None; WordBoundary].

Definition carrier_patterns : list (string * regex) :=
  [("UPS", RE_UPS); ("USPS", RE_USPS); ("FedEx", RE_FEDEX); ("DHL", RE_DHL);
   ("Amazon Logistics", RE_TBA)].

(** The loop of [detect_tracking] over a list of (name, pattern) pairs. *)
Fixpoint first_match (pats : list (string * regex)) (body : string)
  : string * string :=
  match pats with
  | [] => ("", "")
  | (name, rx) :: rest =>
      match search rx body with
      | Some m => (name, m)
      | None => first_match rest body
      end
  end.

Definition detect_tracking (body : string) : string * string :=
  first_match carrier_patterns body.

(** ** HTML to text *)

Definition RE_TAG : regex :=
  Regex false [Lit "<"; Rep (NoneOf [">"%char]) 1 None; Lit ">"].
Definition RE_SPACES : regex := Regex false [Rep Space 1 None].

(** ** Exceptions *)

Inductive exn : Type :=
| LookupError          (* unknown encoding *)
| AttributeError       (* method call on [None] *)
| IndexError           (* index out of range *)
| HeaderParseError     (* raised by [decode_header] *)
| UnicodeError.        (* raised by a codec *)

Inductive result (A : Type) : Type :=
| Ok (a : A)
| Raise (e : exn).
Arguments Ok {A} a.
Arguments Raise {A} e.

Definition bind {A B : Type} (r : result A) (k : A -> result B) : result B :=
  match r with
  | Ok a => k a
  | Raise e => Raise e
  end.

Notation "x <- r ;; k" := (bind r (fun x => k))
  (at level 61, r at next level, right associativity).

(** [try: return r] followed by [except: pass] and the rest [k] of the
    code. *)
Definition try_return {A : Type} (r : result A) (k : result A) : result A :=
  match r with
  | Ok a => Ok a
  | Raise _ => k
  end.

Definition raises {A : Type} (r : result A) : bool :=
  match r with Ok _ => false | Raise _ => true end.

(** [x or d] for an [x] that is a string or [None]. *)
Definition or_else (x : option string) (d : string) : string :=
  match x with
  | Some (String _ _ as s) => s
  | _ => d
  end.

(** ** Messages *)

Definition bytes : Type := list byte.

(** A parsed [email.message.Message]: its headers in order, what
    [get_content_type()] and [get_content_charset()] return, and its
    payload, a list of sub-messages when [is_multipart()] and the
    transfer-decoded bytes of [get_payload(decode=True)] otherwise. *)
#[warnings="-register-all"]
Inductive message : Type :=
| Leaf (headers : list (string * string)) (content_type : string)
       (charset : option string) (payload : bytes)
| Multipart (headers : list (string * string)) (content_type : string)
            (charset : option string) (parts : list message).

Definition headers_of (m : message) : list (string * string) :=
  match m with Leaf h _ _ _ => h | Multipart h _ _ _ => h end.

Definition get_content_type (m : message) : string :=
  match m with Leaf _ t _ _ => t | Multipart _ t _ _ => t end.

Definition get_content_charset (m : message) : option string :=
  match m with Leaf _ _ c _ => c | Multipart _ _ c _ => c end.

Definition is_multipart (m : message) : bool :=
  match m with Leaf _ _ _ _ => false | Multipart _ _ _ _ => true end.

(** [get_payload(decode=True)] is [None] for a multipart message. *)
Definition get_payload_decoded (m : message) : option bytes :=
  match m with Leaf _ _ _ b => Some b | Multipart _ _ _ _ => None end.

(** [msg.walk()]: the message and its sub-messages, depth first. *)
Fixpoint walk (m : message) : list message :=
  match m with
  | Leaf _ _ _ _ => [m]
  | Multipart _ _ _ ps =>
      m :: (fix walk_all (l : list message) : list message :=
              match l with
              | [] => []
              | p :: l' => (walk p ++ walk_all l')%list
              end) ps
  end.

(** [msg.get(name)]: header names compare without regard to case, the first
    header of that name is returned. *)
Fixpoint msg_get (hs : list (string * string)) (name : string)
  : option string :=
  match hs with
  | [] => None
  | (k, v) :: hs' =>
      if lower k =? lower name then Some v else msg_get hs' name
  end.

(** [bool(msg)]: a [Message] has [__len__], the number of its headers. *)
Definition msg_truthy (m : message) : bool :=
  match headers_of m with [] => false | _ :: _ => true end.

(** One element of what [decode_header] returns. *)
Inductive segment : Type :=
| SegBytes (b : bytes)
| SegStr (s : string).

(** The functions of the Python standard library that the code calls and
    that are not modelled further: the codec registry (a codec, looked up by
    name, decodes with the [ignore] error handler), [decode_header],
    [html.unescape] and [email.message_from_bytes]. *)
Record stdlib : Type := Stdlib {
  codec : string -> option (bytes -> result string);
  decode_header : string -> result (list (segment * option string));
  unescape : string -> string;
  message_from_bytes : bytes -> message
}.

(** The mailbox session: [imap.search(None, crit)] and
    [imap.fetch(id, "(RFC822)")], each returning [(typ, data)].  These are
    the calls that return, with [typ] "OK" or "NO"; a call that [imaplib]
    leaves by an exception (a BAD response, a lost connection) is no value
    of this type, and the items of the fetch data are the pairs of an
    envelope and a message, or [None]. *)
Record imap_session : Type := Imap {
  imap_search : string -> string * list (option bytes);
  imap_fetch : bytes -> string * list (option (bytes * bytes))
}.

(** [bytes.split()] splits on ASCII whitespace. *)
Definition is_bspace (b : byte) : bool :=
  ((9 <=? Byte.to_nat b) && (Byte.to_nat b <=? 13) || (Byte.to_nat b =? 32))%nat.

Definition flush (cur : bytes) : list bytes :=
  match cur with [] => [] | _ :: _ => [rev cur] end.

Fixpoint split_from (cur : bytes) (bs : bytes) : list bytes :=
  match bs with
  | [] => flush cur
  | b :: bs' =>
      if is_bspace b then (flush cur ++ split_from [] bs')%list
      else split_from (b :: cur) bs'
  end.

Definition bytes_split (bs : bytes) : list bytes := split_from [] bs.

(** [l[-1]] *)
Definition last_item {A : Type} (l : list A) : result A :=
  match rev l with
  | [] => Raise IndexError
  | x :: _ => Ok x
  end.

(** [str.strip()] *)
Fixpoint lstrip (s : string) : string :=
  match s with
  | String c s' => if is_space c then lstrip s' else s
  | EmptyString => EmptyString
  end.

Fixpoint rstrip (s : string) : string :=
  match s with
  | String c s' =>
      match rstrip s' with
      | EmptyString => if is_space c then EmptyString else String c EmptyString
      | r => String c r
      end
  | EmptyString => EmptyString
  end.

Definition strip (s : string) : string := rstrip (lstrip s).

Definition dquote : string := String (ascii_of_nat 34) EmptyString.

(** ** Message decoder, mailbox search and driver *)

Record OutputRecord : Type := Row {
  order_number : string;
  site : string;
  status : string;
  tracking : string;
  carrier : string;
  email_date : string;
  subject : string
}.

(** A row of the sheet: the [dict] that [fetch_sheet_rows] builds, keys in
    insertion order, each key once. *)
Definition sheet_row : Type := list (string * string).

(** [r.get(key)] *)
Fixpoint row_get (r : sheet_row) (key : string) : option string :=
  match r with
  | [] => None
  | (k, v) :: r' => if k =? key then Some v else row_get r' key
  end.

Section Pipeline.

Variable L : stdlib.

(** [b.decode(enc, "ignore")] *)
Definition bytes_decode (b : bytes) (enc : string) : result string :=
  match codec L enc with
  | Some d => d b
  | None => Raise LookupError
  end.

(** The loop body of [dec]. *)
Definition dec_segment (seg : segment * option string) : result string :=
  match fst seg with
  | SegBytes b => bytes_decode b (or_else (snd seg) "utf-8")
  | SegStr t => Ok t
  end.

Fixpoint dec_segments (segs : list (segment * option string))
  : result string :=
  match segs with
  | [] => Ok ""
  | seg :: rest =>
      t <- dec_segment seg ;;
      out <- dec_segments rest ;;
      Ok (t ++ out)
  end.

Definition dec (s : string) : result string :=
  if nonempty s then
    segs <- decode_header L s ;;
    dec_segments segs
  else Ok "".

Definition html_to_text (h : string) : string :=
  unescape L (re_sub RE_SPACES " " (re_sub RE_TAG " " h)).

(** [p.get_payload(decode=True).decode(p.get_content_charset() or "utf-8",
    "ignore")] *)
Definition decode_part (p : message) : result string :=
  match get_payload_decoded p with
  | Some b => bytes_decode b (or_else (get_content_charset p) "utf-8")
  | None => Raise AttributeError
  end.

(** One [for p in msg.walk()] loop of [get_body]; [k] is the code after
    the loop. *)
Fixpoint part_loop (ctype : string) (post : string -> string)
         (ps : list message) (k : result string) : result string :=
  match ps with
  | [] => k
  | p :: ps' =>
      if get_content_type p =? ctype
      then try_return (t <- decode_part p ;; Ok (post t))
                      (part_loop ctype post ps' k)
      else part_loop ctype post ps' k
  end.

Definition get_body (msg : message) : result string :=
  if is_multipart msg then
    part_loop "text/plain" (fun t => t) (walk msg)
      (part_loop "text/html" html_to_text (walk msg) (Ok ""))
  else try_return (decode_part msg) (Ok "").

Definition search_criterion (order_number site_hint : string) : string :=
  if nonempty site_hint
  then "(TEXT " ++ dquote ++ order_number ++ dquote ++ " TEXT " ++ dquote ++
       site_hint ++ dquote ++ ")"
  else "(TEXT " ++ dquote ++ order_number ++ dquote ++ ")".

(** Lines 80 to 82: fetch the message of an id. *)
Definition fetch_message (imap : imap_session) (id : bytes)
  : option message :=
  let (typ, msg_data) := imap_fetch imap id in
  if negb (typ =? "OK") then None
  else match msg_data with
       | Some (_, raw) :: _ => Some (message_from_bytes L raw)
       | _ => None
       end.

Definition search_latest_for_order (imap : imap_session)
           (order_number site_hint : string) : result (option message) :=
  let crit := search_criterion order_number site_hint in
  let (typ, data) := imap_search imap crit in
  if negb (typ =? "OK") then Ok None
  else match data with
       | Some ((_ :: _) as ids) :: _ =>
           latest_id <- last_item (bytes_split ids) ;;
           Ok (fetch_message imap latest_id)
       | _ => Ok None
       end.

Definition order_of (r : sheet_row) : string :=
  strip (or_else (row_get r "order number")
                 (or_else (row_get r "order_number") "")).

Definition site_of (r : sheet_row) : string :=
  strip (or_else (row_get r "site") "").

Definition pending_row (order site : string) : OutputRecord :=
  Row order site "Pending" "" "" "" "".

(** The body of the loop of [main] for one row: the row written, if any. *)
Definition process_row (imap : imap_session) (r : sheet_row)
  : result (option OutputRecord) :=
  let order := order_of r in
  let site := site_of r in
  if negb (nonempty order) then Ok None
  else
    found <- search_latest_for_order imap order site ;;
    match found with
    | Some msg =>
        if negb (msg_truthy msg) then Ok (Some (pending_row order site))
        else
          subject <- dec (or_else (msg_get (headers_of msg) "Subject") "") ;;
          date_hdr <- dec (or_else (msg_get (headers_of msg) "Date") "") ;;
          body <- get_body msg ;;
          let (carrier, tracking) := detect_tracking body in
          let status := detect_status subject body (nonempty tracking) in
          Ok (Some (Row order site status tracking carrier date_hdr subject))
    | None => Ok (Some (pending_row order site))
    end.

(** The loop of [main]: the rows written, in order, and how the loop
    ended.  An exception leaves the loop; the rows written before it stay
    in the file. *)
Fixpoint main_loop (imap : imap_session) (rows : list sheet_row)
  : list OutputRecord * result unit :=
  match rows with
  | [] => ([], Ok tt)
  | r :: rows' =>
      match process_row imap r with
      | Ok None => main_loop imap rows'
      | Ok (Some out) =>
          let (written, ending) := main_loop imap rows' in
          (out :: written, ending)
      | Raise e => ([], Raise e)
      end
  end.

End Pipeline.

(** ** A concrete library and mailbox for the examples *)

Definition b (s : string) : bytes := list_byte_of_string s.

(** The [ascii] codec with [ignore] drops the bytes above 127. *)
Definition ascii_ignore (bs : bytes) : string :=
  string_of_list_byte (filter (fun x => (Byte.to_nat x <? 128)%nat) bs).

(** The [utf-8] codec with [ignore], on the code points the model holds:
    one-byte sequences and the two-byte sequences of U+0080..U+00FF; every
    other byte is dropped. *)
Fixpoint utf8_ignore (bs : bytes) : string :=
  match bs with
  | [] => ""
  | x :: bs' =>
      let n := Byte.to_nat x in
      if (n <? 128)%nat then String (ascii_of_nat n) (utf8_ignore bs')
      else if ((n =? 194) || (n =? 195))%nat then
        match bs' with
        | y :: bs'' =>
            let k := Byte.to_nat y in
            if ((128 <=? k) && (k <? 192))%nat
            then String (ascii_of_nat ((n - 192) * 64 + (k - 128)))
                        (utf8_ignore bs'')
            else utf8_ignore bs'
        | [] => ""
        end
      else utf8_ignore bs'
  end.

Definition example_codec (name : string) : option (bytes -> result string) :=
  if (name =? "utf-8") || (name =? "utf8") then
    Some (fun bs => Ok (utf8_ignore bs))
  else if (name =? "iso-8859-1") || (name =? "latin-1") then
    Some (fun bs => Ok (string_of_list_byte bs))
  else if (name =? "us-ascii") || (name =? "ascii") then
    Some (fun bs => Ok (ascii_ignore bs))
  else None.

(** [decode_header] returns a header without encoded words whole, as text;
    the one encoded word of the examples names a character set that no
    codec has. *)
Definition bad_subject : string := "=?x-unknown?q?hi?=".

Definition example_decode_header (s : string)
  : result (list (segment * option string)) :=
  if s =? bad_subject then Ok [(SegBytes (b "hi"), Some "x-unknown")]
  else Ok [(SegStr s, None)].

(** [html.unescape] returns a string without an ampersand as it is; the
    named references are not modelled. *)
Definition example_unescape (s : string) : string := s.

(** Three messages of the example mailbox: the text fetched, and the
    message that [email.message_from_bytes] parses it to. *)
Definition nl : string := String (ascii_of_nat 10) EmptyString.

Definition raw_shipped : bytes :=
  b ("Subject: Your order" ++ nl ++
     "Date: Mon, 01 Jan 2024 10:00:00 +0000" ++ nl ++
     "Content-Type: text/plain; charset=us-ascii" ++ nl ++ nl ++
     "Tracking number 1Z999AA10123456784 is on the way .").

Definition raw_html : bytes :=
  b ("Subject: Order update" ++ nl ++
     "Content-Type: multipart/alternative; boundary=x" ++ nl ++ nl ++
     "--x" ++ nl ++
     "Content-Type: text/html; charset=iso-8859-1" ++ nl ++ nl ++
     "<b>Your order has shipped</b>" ++ nl ++
     "--x--" ++ nl).

Definition raw_bad_subject : bytes :=
  b ("Subject: =?x-unknown?q?hi?=" ++ nl ++ nl ++ "Thanks .").

Definition msg_shipped : message :=
  Leaf [("Subject", "Your order");
        ("Date", "Mon, 01 Jan 2024 10:00:00 +0000");
        ("Content-Type", "text/plain; charset=us-ascii")]
       "text/plain" (Some "us-ascii")
       (b "Tracking number 1Z999AA10123456784 is on the way .").

Definition msg_html : message :=
  Multipart [("Subject", "Order update");
             ("Content-Type", "multipart/alternative; boundary=x")]
            "multipart/alternative" None
            [Leaf [("Content-Type", "text/html; charset=iso-8859-1")]
                  "text/html" (Some "iso-8859-1")
                  (b "<b>Your order has shipped</b>")].

Definition msg_bad_subject : message :=
  Leaf [("Subject", bad_subject)] "text/plain" None (b "Thanks .").

Definition example_message_from_bytes (raw : bytes) : message :=
  if string_of_list_byte raw =? string_of_list_byte raw_shipped
  then msg_shipped
  else if string_of_list_byte raw =? string_of_list_byte raw_html
  then msg_html
  else msg_bad_subject.

Definition example_lib : stdlib :=
  Stdlib example_codec example_decode_header example_unescape
         example_message_from_bytes.

(** Order A100 matches messages 3 and 9, order B200 of site "shop" matches
    message 4, order C300 matches message 7, order D400 matches message 3,
    which cannot be fetched, and nothing else matches. *)
Definition example_imap : imap_session :=
  Imap
    (fun crit =>
       if crit =? search_criterion "A100" "" then ("OK", [Some (b "3 9")])
       else if crit =? search_criterion "B200" "shop" then ("OK", [Some (b "4")])
       else if crit =? search_criterion "C300" "" then ("OK", [Some (b "7")])
       else if crit =? search_criterion "D400" "" then ("OK", [Some (b "3")])
       else ("OK", [Some (b "")]))
    (fun id =>
       if string_of_list_byte id =? "4"
       then ("OK", [Some (b "4 (RFC822 {152}", raw_shipped); None])
       else if string_of_list_byte id =? "7"
       then ("OK", [Some (b "7 (RFC822 {156}", raw_html); None])
       else if string_of_list_byte id =? "9"
       then ("OK", [Some (b "9 (RFC822 {37}", raw_bad_subject); None])
       else ("OK", [None])).

Definition example_rows : list sheet_row :=
  [[("order number", "A100"); ("site", "")];
   [("order number", "B200"); ("site", "shop")];
   [("order number", ""); ("site", "shop")];
   [("order number", "Z999"); ("site", "")]].

(** ** Vocabulary of the statements *)

(** Some phrase of the table entry [key] occurs in the text that
    [detect_status] searches. *)
Definition mentions (key subject body : string) : Prop :=
  exists h, In h (STATUS_HINTS key) /\ Substring h (status_text subject body).

Fixpoint min_len (its : list item) : nat :=
  match its with
  | [] => 0
  | WordBoundary :: r => min_len r
  | Lit _ :: r => S (min_len r)
  | Rep _ lo _ :: r => lo + min_len r
  end.

(** The character before the position that follows [s]. *)
Fixpoint last_of (prev : option ascii) (s : string) : option ascii :=
  match s with
  | EmptyString => prev
  | String a s' => last_of (Some a) s'
  end.

Fixpoint all_in (mem : ascii -> bool) (s : string) : bool :=
  match s with
  | EmptyString => true
  | String a s' => mem a && all_in mem s'
  end.

Definition within (n : nat) (hi : option nat) : Prop :=
  match hi with Some h => n <= h | None => True end.

(** [pre] does not end, and [post] does not start, with a word character:
    a token between them stands between two word boundaries. *)
Definition delimited (pre post : string) : Prop :=
  word_opt (last_of None pre) = false /\ word_opt (head post) = false.

(** No run of digits in [body] is longer than [n]. *)
Definition digit_runs_within (n : nat) (body : string) : Prop :=
  forall run, Substring run body -> all_in is_digit run = true ->
              String.length run <= n.






Definition not_gt (c : ascii) : bool := cset_mem false (NoneOf [">"%char]) c.

Definition shipped_html : string := "<b>Your order has shipped</b>".

Definition not_amp (c : ascii) : bool := negb (Ascii.eqb c "&").

(** Every part of the kind [ctype] among [ps] fails to decode. *)
Definition none_decodes (L : stdlib) (ctype : string) (ps : list message)
  : Prop :=
  forall q, In q ps -> get_content_type q = ctype ->
            raises (decode_part L q) = true.

(** Every character that an item of the pattern can take satisfies [P]. *)
Definition items_within (P : ascii -> bool) (ic : bool) (its : list item)
  : Prop :=
  Forall (fun it =>
            match it with
            | WordBoundary => True
            | Lit c => forall a, lit_eq ic c a = true -> P a = true
            | Rep cs _ _ => forall a, cset_mem ic cs a = true -> P a = true
            end) its.

(** The longest text the items can match, when every repetition is
    bounded. *)
Fixpoint max_len (its : list item) : option nat :=
  match its with
  | [] => Some 0
  | WordBoundary :: r => max_len r
  | Lit _ :: r => option_map S (max_len r)
  | Rep _ _ hi :: r =>
      match hi, max_len r with
      | Some h, Some n => Some (h + n)
      | _, _ => None
      end
  end.
(** Every run of white space replaced by one space; [in_run] tells that
    the character before was white space. *)
Fixpoint squeeze (in_run : bool) (s : string) : string :=
  match s with
  | EmptyString => EmptyString
  | String c s' =>
      if is_space c
      then if in_run then squeeze true s' else String " " (squeeze true s')
      else String c (squeeze false s')
  end.

(** The only white space of [s] are single spaces, none next to another. *)
Fixpoint squeezed (s : string) : bool :=
  match s with
  | EmptyString => true
  | String c s' =>
      (negb (is_space c) ||
       (Ascii.eqb c " " &&
        negb (match head s' with Some d => is_space d | None => false end)))
      && squeezed s'
  end.

(** The characters of [s] that are not white space. *)
Fixpoint without_space (s : string) : string :=
  match s with
  | EmptyString => EmptyString
  | String c s' =>
      if is_space c then without_space s' else String c (without_space s')
  end.
(** ** Sheet rows *)

(** [d[k] = v] on a [dict]: a key that is there keeps its place. *)
Fixpoint dict_set (d : sheet_row) (k v : string) : sheet_row :=
  match d with
  | [] => [(k, v)]
  | (k', v') :: d' =>
      if k' =? k then (k', v) :: d' else (k', v') :: dict_set d' k v
  end.

(** The dict comprehension of [fetch_sheet_rows], from column [i] on:
    [cells] are [r[i:]] and [d] holds the columns before [i]. *)
Fixpoint make_row (header cells : list string) (d : sheet_row) : sheet_row :=
  match header with
  | [] => d
  | h :: header' =>
      make_row header' (tl cells)
               (dict_set d h (match cells with
                              | c :: _ => strip c
                              | [] => ""
                              end))
  end.

(** Lines 35 to 41 of [fetch_sheet_rows]; [rows] is what [csv.reader]
    returns for the lines of the sheet. *)
Definition fetch_sheet_rows (rows : list (list string)) : list sheet_row :=
  match rows with
  | [] => []
  | first :: data =>
      let header := map (fun h => lower (strip h)) first in
      map (fun r => make_row header r []) data
  end.

(** [r[i].strip() if i < len(r) else ""] *)
Definition cell (r : list string) (i : nat) : string :=
  match nth_error r i with
  | Some c => strip c
  | None => ""
  end.
(** A character other than the double quote. *)
Definition not_dquote (c : ascii) : bool :=
  negb (Ascii.eqb c (ascii_of_nat 34)).
(** ** The whole run *)

(** The settings read from the environment; a variable that is not set is
    [None]. *)
Record settings : Type := Settings {
  SHEET_CSV_URL : option string;
  IMAP_EMAIL : option string;
  IMAP_APP_PASSWORD : option string;
  MAILBOX : string
}.

(** What the run asks of the network: the rows that [csv.reader] gives for
    the sheet at a URL, and the session that [IMAP4_SSL], [login] and
    [select] give for an account and a folder; [None] stands for an
    exception of the library. *)
Record network : Type := Network {
  read_sheet : string -> option (list (list string));
  open_mailbox : string -> string -> string -> option imap_session
}.

(** What the run does that can be seen from outside, in order. *)
Inductive event : Type :=
| Stderr (msg : string)
| Stdout (msg : string)
| SheetRead (url : string)
| MailboxOpened (email mailbox : string)
| FileOpened
| RowWritten (cells : list string)
| FileClosed
| LoggedOut.

Inductive ending : Type :=
| Finished
| Exit (exit_code : nat)
| Uncaught (e : option exn).

(** [die(msg)] *)
Definition die (msg : string) : list event * ending :=
  ([Stderr msg], Exit 1).

Definition header_cells : list string :=
  ["order_number"; "site"; "status"; "tracking"; "carrier"; "email_date";
   "subject"].

(** The list given to [w.writerow] for a row. *)
Definition cells_of (o : OutputRecord) : list string :=
  [order_number o; site o; status o; tracking o; carrier o; email_date o;
   subject o].

(** [imap_connect()]: the session, or how the run ends. *)
Definition imap_connect (cfg : settings) (net : network)
  : list event * (imap_session + ending) :=
  if nonempty (or_else (IMAP_EMAIL cfg) "")
     && nonempty (or_else (IMAP_APP_PASSWORD cfg) "")
  then match open_mailbox net (or_else (IMAP_EMAIL cfg) "")
                          (or_else (IMAP_APP_PASSWORD cfg) "") (MAILBOX cfg)
       with
       | Some imap =>
           ([MailboxOpened (or_else (IMAP_EMAIL cfg) "") (MAILBOX cfg)],
            inl imap)
       | None => ([], inr (Uncaught None))
       end
  else ([Stderr "Missing IMAP_EMAIL/IMAP_APP_PASSWORD."], inr (Exit 1)).

Definition main (cfg : settings) (net : network) (L : stdlib)
  : list event * ending :=
  let url := or_else (SHEET_CSV_URL cfg) "" in
  if negb (nonempty url) then die "Missing SHEET_CSV_URL."
  else
    match read_sheet net url with
    | None => ([], Uncaught None)
    | Some csv_rows =>
        match fetch_sheet_rows csv_rows with
        | [] => (SheetRead url :: fst (die "No rows from sheet CSV."), Exit 1)
        | (_ :: _) as rows =>
            match imap_connect cfg net with
            | (evs, inr e) => ((SheetRead url :: evs)%list, e)
            | (evs, inl imap) =>
                let (written, loop_end) := main_loop L imap rows in
                let file := (FileOpened :: RowWritten header_cells
                               :: map (fun o => RowWritten (cells_of o)) written
                               ++ [FileClosed])%list in
                match loop_end with
                | Ok _ =>
                    ((SheetRead url :: evs ++ file
                        ++ [LoggedOut; Stdout "Wrote data/status.csv"])%list,
                     Finished)
                | Raise e =>
                    ((SheetRead url :: evs ++ file)%list, Uncaught (Some e))
                end
            end
        end
    end.

(** The rows written to the file, in order. *)
Fixpoint rows_written (tr : list event) : list (list string) :=
  match tr with
  | [] => []
  | RowWritten cells :: tr' => cells :: rows_written tr'
  | _ :: tr' => rows_written tr'
  end.

Definition example_settings : settings :=
  Settings (Some "https://example.org/sheet.csv") (Some "me@example.org")
           (Some "secret") "INBOX".

Definition example_network : network :=
  Network (fun _ => Some [["Order Number"; "Site"]; ["B200"; "shop"];
                          [""; "shop"]; ["Z999"]])
          (fun _ _ _ => Some example_imap).

(** [k] characters of the set [P] stand at the start of [s]. *)
Fixpoint starts_run (P : ascii -> bool) (k : nat) (s : string) : bool :=
  match k with
  | O => true
  | S k' =>
      match s with
      | String c s' => P c && starts_run P k' s'
      | EmptyString => false
      end
  end.

(** [k] characters of the set [P] stand next to each other in [s]. *)
Fixpoint has_run (P : ascii -> bool) (k : nat) (s : string) : bool :=
  starts_run P k s ||
  match s with
  | String _ s' => has_run P k s'
  | EmptyString => false
  end.

(** A message with a multipart inside a multipart: an alternative of an
    HTML and a plain part, followed by a second plain part. *)
Definition msg_nested : message :=
  Multipart
    [("Subject", "Order"); ("Content-Type", "multipart/mixed; boundary=o")]
    "multipart/mixed" None
    [Multipart
       [("Content-Type", "multipart/alternative; boundary=i")]
       "multipart/alternative" None
       [Leaf [("Content-Type", "text/html; charset=us-ascii")]
             "text/html" (Some "us-ascii") (b "<p>inner html</p>");
        Leaf [("Content-Type", "text/plain; charset=us-ascii")]
             "text/plain" (Some "us-ascii") (b "inner plain")];
     Leaf [("Content-Type", "text/plain; charset=us-ascii")]
          "text/plain" (Some "us-ascii") (b "outer plain")].

(** * Properties *)

(** ** Strings *)

Lemma app_assoc_s (x y z : string) : (x ++ y) ++ z = x ++ y ++ z.
Proof. induction x as [|c x IH]; simpl; [reflexivity | now rewrite IH]. Qed.

Lemma app_empty_r (x : string) : x ++ "" = x.
Proof. induction x as [|c x IH]; simpl; [reflexivity | now rewrite IH]. Qed.

Lemma lower_app (x y : string) : lower (x ++ y) = lower x ++ lower y.
Proof. induction x as [|c x IH]; simpl; [reflexivity | now rewrite IH]. Qed.

Lemma prefix_spec (h s : string) :
  prefix h s = true <-> exists post, s = h ++ post.
Proof.
  revert s; induction h as [|c h IH]; intros s.
  - split; [intros _; exists s; reflexivity | destruct s; reflexivity].
  - destruct s as [|d s]; simpl.
    + split; [discriminate | intros [post H]; discriminate].
    + destruct (ascii_dec c d) as [->|ne].
      * rewrite IH. split; intros [post H]; exists post.
        -- now rewrite H.
        -- now injection H.
      * split; [discriminate | intros [post H]; injection H; congruence].
Qed.

Lemma contains_cons (h : string) (c : ascii) (s : string) :
  contains h (String c s) = prefix h (String c s) || contains h s.
Proof. reflexivity. Qed.

Lemma contains_spec (h s : string) : contains h s = true <-> Substring h s.
Proof.
  induction s as [|c s IH].
  - change (contains h "") with (prefix h "" || false).
    rewrite orb_false_r, prefix_spec. split.
    + intros [post H]. exists "", post. exact H.
    + intros [pre [post H]]. destruct pre; simpl in H.
      * now exists post.
      * discriminate.
  - rewrite contains_cons, orb_true_iff, prefix_spec, IH. split.
    + intros [[post H] | [pre [post H]]].
      * exists "", post. exact H.
      * exists (String c pre), post. simpl. now rewrite H.
    + intros [pre [post H]]. destruct pre as [|d pre]; simpl in H.
      * left. now exists post.
      * right. exists pre, post. now injection H.
Qed.

Lemma contains_false (h s : string) : contains h s = false -> ~ Substring h s.
Proof. intros H S. apply contains_spec in S. congruence. Qed.

Lemma any_in_spec (hints : list string) (s : string) :
  any_in hints s = true <-> exists h, In h hints /\ Substring h s.
Proof.
  unfold any_in. rewrite existsb_exists.
  split; intros [h [Hin H]]; exists h; split; trivial; now apply contains_spec.
Qed.

Lemma Substring_app (h s pre post : string) :
  Substring h s -> Substring h (pre ++ s ++ post).
Proof.
  intros [p [q ->]]. exists (pre ++ p), (q ++ post).
  now rewrite !app_assoc_s.
Qed.

Lemma Substring_trans (a m s : string) :
  Substring a m -> Substring m s -> Substring a s.
Proof. intros H [p [q ->]]. now apply Substring_app. Qed.

(** ** Status classifier *)

Lemma detect_status_cases (subject body : string) (ht : bool) :
  detect_status subject body ht =
  if any_in (STATUS_HINTS "delivered") (status_text subject body)
  then "Delivered"
  else if ht || any_in (STATUS_HINTS "shipped") (status_text subject body)
       then "Shipped" else "Pending".
Proof.
  unfold detect_status.
  destruct (any_in (STATUS_HINTS "delivered") _); [reflexivity|].
  destruct (ht || _); [reflexivity|].
  destruct (any_in (STATUS_HINTS "pending") _); [reflexivity|].
  destruct (_ || _); reflexivity.
Qed.

Lemma mentions_any_in (key subject body : string) :
  mentions key subject body <->
  any_in (STATUS_HINTS key) (status_text subject body) = true.
Proof. unfold mentions. now rewrite any_in_spec. Qed.

Lemma delivered_wins (subject body : string) (ht : bool) :
  mentions "delivered" subject body ->
  detect_status subject body ht = "Delivered".
Proof.
  intros H. apply mentions_any_in in H.
  rewrite detect_status_cases. now rewrite H.
Qed.

Lemma not_mentions (key subject body : string) :
  ~ mentions key subject body ->
  any_in (STATUS_HINTS key) (status_text subject body) = false.
Proof.
  intros H. destruct (any_in _ _) eqn:E; [|reflexivity].
  exfalso. apply H. now apply mentions_any_in.
Qed.

Lemma body_in_status_text (h subject body : string) :
  Substring h (lower body) -> Substring h (status_text subject body).
Proof.
  intros H. unfold status_text.
  replace (" " ++ lower subject ++ " " ++ lower body ++ " ")
    with ((" " ++ lower subject ++ " ") ++ lower body ++ " ")
    by now rewrite !app_assoc_s.
  now apply Substring_app.
Qed.

Lemma subject_in_status_text (h subject body : string) :
  Substring h (lower subject) -> Substring h (status_text subject body).
Proof. intros H. unfold status_text. now apply Substring_app. Qed.

(** C1, as stated: the classifier is not the decision list of section 4.4,
    whose phrases are bare: a subject "Shipped!" mentions "shipped" and is
    Pending for the code. *)
Lemma detect_status_differs_from_spec_list :
  spec_detect_status "Shipped!" "" false = "Shipped" /\
  detect_status "Shipped!" "" false = "Pending" /\
  ~ (forall subject body has_tracking,
        detect_status subject body has_tracking =
        spec_detect_status subject body has_tracking).
Proof.
  split; [reflexivity|]. split; [reflexivity|].
  intros H. specialize (H "Shipped!" "" false). discriminate H.
Qed.

(** C1, amended: the classifier is the strict-priority decision list over
    the text [" subject body "] in lower case and the phrases of
    [STATUS_HINTS]: Delivered if a delivered phrase occurs in it; else
    Shipped if a tracking number was extracted or a shipped phrase occurs;
    else Pending.  A body with both "delivered on 5/1" and "out for
    delivery" is Delivered, and a tracking number without a delivered phrase
    gives Shipped. *)
Theorem detect_status_decision_list :
  (forall subject body has_tracking,
      (mentions "delivered" subject body ->
       detect_status subject body has_tracking = "Delivered") /\
      (~ mentions "delivered" subject body ->
       has_tracking = true \/ mentions "shipped" subject body ->
       detect_status subject body has_tracking = "Shipped") /\
      (~ mentions "delivered" subject body ->
       has_tracking = false -> ~ mentions "shipped" subject body ->
       detect_status subject body has_tracking = "Pending")) /\
  (forall subject body has_tracking,
      Substring "delivered on 5/1" (lower body) ->
      Substring "out for delivery" (lower body) ->
      detect_status subject body has_tracking = "Delivered") /\
  (forall subject body,
      ~ mentions "delivered" subject body ->
      ~ mentions "shipped" subject body ->
      ~ mentions "pending" subject body ->
      detect_status subject body true = "Shipped").
Proof.
  split; [|split].
  - intros subject body ht. split; [apply delivered_wins|]. split.
    + intros Hd Hs. rewrite detect_status_cases, (not_mentions Hd).
      destruct Hs as [-> | Hs]; [reflexivity|].
      apply mentions_any_in in Hs. rewrite Hs. now rewrite orb_true_r.
    + intros Hd -> Hs.
      now rewrite detect_status_cases, (not_mentions Hd), (not_mentions Hs).
  - intros subject body ht H _. apply delivered_wins.
    exists "delivered on". split; [simpl; tauto|].
    apply body_in_status_text.
    apply Substring_trans with (m := "delivered on 5/1"); [|exact H].
    exists "", " 5/1". reflexivity.
  - intros subject body Hd _ _.
    now rewrite detect_status_cases, (not_mentions Hd).
Qed.

Lemma detect_status_decision_list_witness :
  detect_status "Update" "Out for delivery, then Delivered on 5/1." false
  = "Delivered" /\
  detect_status "Label created" "tracking: 1Z999AA10123456784" true
  = "Shipped".
Proof.
  split.
  - apply (proj1 (proj2 detect_status_decision_list));
      apply contains_spec; reflexivity.
  - apply (proj2 (proj2 detect_status_decision_list));
      intros [h [Hin H]]; apply contains_spec in H; simpl in Hin;
      repeat (destruct Hin as [<- | Hin]; [discriminate H|]); exact Hin.
Defined.

Lemma padded_in_status_text (h subject body : string) :
  Substring h (" " ++ lower subject ++ " ") \/
  Substring h (" " ++ lower body ++ " ") ->
  Substring h (status_text subject body).
Proof.
  unfold status_text. intros [H | H].
  - replace (" " ++ lower subject ++ " " ++ lower body ++ " ")
      with ("" ++ (" " ++ lower subject ++ " ") ++ lower body ++ " ")
      by (simpl; rewrite ?app_assoc_s; reflexivity).
    now apply Substring_app.
  - replace (" " ++ lower subject ++ " " ++ lower body ++ " ")
      with ((" " ++ lower subject) ++ (" " ++ lower body ++ " ") ++ "")
      by (rewrite app_empty_r; simpl; rewrite ?app_assoc_s; reflexivity).
    now apply Substring_app.
Qed.

(** C6, as stated: the bare word is not a phrase of the code.  The subject
    "Package delivered." contains "delivered" and is classified Pending. *)
Lemma bare_delivered_is_pending :
  Substring "delivered" (lower "Package delivered.") /\
  detect_status "Package delivered." "" false = "Pending".
Proof. split; [apply contains_spec|]; reflexivity. Qed.

(** C6, amended: if the subject or the body, in lower case and with one
    space put before and after it, contains a phrase of
    [STATUS_HINTS "delivered"] (the word "delivered" between two spaces,
    " has been delivered", "was delivered" or "delivered on"), the
    classifier returns Delivered. *)
Theorem delivered_phrase_classifies_delivered
        (subject body h : string) (has_tracking : bool) :
  In h [" delivered "; " has been delivered"; "was delivered"; "delivered on"] ->
  Substring h (" " ++ lower subject ++ " ") \/
  Substring h (" " ++ lower body ++ " ") ->
  detect_status subject body has_tracking = "Delivered".
Proof.
  intros Hin H. apply delivered_wins. exists h. split; [exact Hin|].
  now apply padded_in_status_text.
Qed.

Lemma delivered_phrase_classifies_delivered_witness :
  detect_status "Package Delivered" "See you soon." true = "Delivered".
Proof.
  apply (@delivered_phrase_classifies_delivered _ _ " delivered ").
  - simpl. tauto.
  - left. apply contains_spec. reflexivity.
Defined.

Lemma status_text_joined (subject body : string) :
  status_text subject body = " " ++ (lower subject ++ " " ++ lower body) ++ " ".
Proof. unfold status_text. now rewrite !app_assoc_s. Qed.

(** C10: the phrases are looked for in one string, the lower-cased subject
    and body joined by one space (and padded by one space at each end), so
    the classification depends on that string alone, and a phrase can lie
    across the join: with a subject ending in "has" and a body starting
    with "shipped " the result is Shipped although no shipped phrase occurs
    in the subject and none in the body. *)
Theorem status_phrase_spans_subject_and_body :
  (forall subject body has_tracking,
      detect_status subject body has_tracking =
      let s := " " ++ (lower subject ++ " " ++ lower body) ++ " " in
      if any_in (STATUS_HINTS "delivered") s then "Delivered"
      else if has_tracking || any_in (STATUS_HINTS "shipped") s then "Shipped"
      else "Pending") /\
  (forall subject1 body1 subject2 body2 has_tracking,
      lower subject1 ++ " " ++ lower body1 =
      lower subject2 ++ " " ++ lower body2 ->
      detect_status subject1 body1 has_tracking =
      detect_status subject2 body2 has_tracking) /\
  (exists subject body,
      (exists pre, subject = pre ++ "has") /\
      (exists rest, body = "shipped " ++ rest) /\
      detect_status subject body false = "Shipped" /\
      (forall h, In h (STATUS_HINTS "shipped") ->
                 ~ Substring h (lower subject) /\ ~ Substring h (lower body)) /\
      detect_status subject "" false = "Pending").
Proof.
  split; [|split].
  - intros. cbv zeta. rewrite detect_status_cases, status_text_joined.
    reflexivity.
  - intros s1 b1 s2 b2 ht H.
    rewrite !detect_status_cases, !status_text_joined. now rewrite H.
  - exists "Your order has", "shipped today".
    split; [now exists "Your order "|]. split; [now exists "today"|].
    split; [reflexivity|]. split; [|reflexivity].
    intros h Hin. simpl in Hin.
    repeat (destruct Hin as [<- | Hin];
            [split; apply contains_false; reflexivity|]).
    destruct Hin.
Qed.

Lemma status_phrase_spans_subject_and_body_witness :
  detect_status "Has" "shipped Today" false =
  detect_status "has shipped" "today" false.
Proof.
  apply (proj1 (proj2 status_phrase_spans_subject_and_body)). reflexivity.
Defined.

(** ** Regular expressions *)

Lemma all_chars_complete (c : ascii) : In c all_chars.
Proof.
  unfold all_chars. rewrite <- (ascii_nat_embedding c).
  apply in_map, in_seq. pose proof (nat_ascii_bounded c). lia.
Qed.

(** A property of characters that holds of the 256 of them. *)
Lemma for_all_chars (P : ascii -> bool) :
  forallb P all_chars = true -> forall c, P c = true.
Proof.
  intros H c. rewrite forallb_forall in H. apply H, all_chars_complete.
Qed.

Lemma digit_is_word (c : ascii) : is_digit c = true -> is_word c = true.
Proof.
  intros H. unfold is_word. unfold is_digit in H. now rewrite H.
Qed.

Lemma alnum_is_word (c : ascii) :
  cset_mem true alnum_upper c = true -> is_word c = true.
Proof.
  pose proof (for_all_chars
                (fun c => implb (cset_mem true alnum_upper c) (is_word c))
                ltac:(vm_compute; reflexivity) c) as H.
  cbv beta in H. intros E. rewrite E in H. exact H.
Qed.

Lemma repeat_greedy_length (mem : ascii -> bool)
      (k : option ascii -> string -> option string) (n : nat) :
  (forall prev s m, k prev s = Some m -> n <= String.length m) ->
  forall s lo hi prev m,
    repeat_greedy mem k lo hi prev s = Some m -> lo + n <= String.length m.
Proof.
  intros Hk. induction s as [|a s IH]; intros lo hi prev m; simpl.
  - destruct (Nat.eqb_spec lo 0) as [->|]; [apply Hk | discriminate].
  - destruct (mem a && can_take hi).
    + destruct (repeat_greedy mem k (pred lo) (option_map pred hi) (Some a) s)
        as [m'|] eqn:E.
      * intros [= <-]. apply IH in E. simpl. lia.
      * destruct (Nat.eqb_spec lo 0) as [->|]; [apply Hk | discriminate].
    + destruct (Nat.eqb_spec lo 0) as [->|]; [apply Hk | discriminate].
Qed.

Lemma match_here_length (ic : bool) (its : list item) :
  forall prev s m,
    match_here ic its prev s = Some m -> min_len its <= String.length m.
Proof.
  induction its as [|it its IH]; intros prev s m; simpl.
  - intros _. lia.
  - destruct it as [|c|cs lo hi].
    + destruct (at_boundary prev s); [apply IH | discriminate].
    + destruct s as [|a s]; [discriminate|].
      destruct (lit_eq ic c a); [|discriminate].
      destruct (match_here ic its (Some a) s) as [m'|] eqn:E; [|discriminate].
      intros [= <-]. apply IH in E. simpl. lia.
    + apply repeat_greedy_length. exact IH.
Qed.

Lemma search_from_eq (rx : regex) (prev : option ascii) (s : string) :
  search_from rx prev s =
  match match_at rx prev s with
  | Some m => Some m
  | None => match s with
            | String a s' => search_from rx (Some a) s'
            | EmptyString => None
            end
  end.
Proof. destruct s; reflexivity. Qed.

Lemma search_from_matched (rx : regex) (s : string) :
  forall prev m, search_from rx prev s = Some m ->
                 exists prev' s', match_at rx prev' s' = Some m.
Proof.
  induction s as [|a s IH]; intros prev m; rewrite search_from_eq.
  - destruct (match_at rx prev "") eqn:E; [|discriminate].
    intros [= <-]. eauto.
  - destruct (match_at rx prev (String a s)) eqn:E.
    + intros [= <-]. eauto.
    + apply IH.
Qed.

Lemma search_length (rx : regex) (s m : string) :
  search rx s = Some m -> min_len (items rx) <= String.length m.
Proof.
  intros H. apply search_from_matched in H. destruct H as [prev [s' H]].
  now apply match_here_length in H.
Qed.

Lemma search_from_found (rx : regex) (pre s : string) :
  forall prev m,
    match_at rx (last_of prev pre) s = Some m ->
    exists m', search_from rx prev (pre ++ s) = Some m'.
Proof.
  induction pre as [|a pre IH]; intros prev m H; rewrite search_from_eq.
  - simpl in *. rewrite H. eauto.
  - simpl. destruct (match_at rx prev (String a (pre ++ s))); [eauto|].
    now apply IH with (m := m).
Qed.

(** The repetition takes a whole run [tok] when nothing more can be taken
    after it and the continuation matches there. *)
Lemma repeat_greedy_run (mem : ascii -> bool)
      (k : option ascii -> string -> option string) (rest m : string) :
  forall tok lo hi prev,
    all_in mem tok = true ->
    lo <= String.length tok -> within (String.length tok) hi ->
    hi = Some (String.length tok) \/
    match head rest with Some c => mem c = false | None => True end ->
    k (last_of prev tok) rest = Some m ->
    repeat_greedy mem k lo hi prev (tok ++ rest) = Some (tok ++ m).
Proof.
  induction tok as [|a tok IH]; intros lo hi prev Hall Hlo Hhi Hstop Hk.
  - simpl in *. assert (lo = 0) as -> by lia.
    destruct rest as [|c rest]; simpl; [exact Hk|].
    destruct Hstop as [-> | Hc]; simpl in *.
    + now rewrite andb_false_r.
    + now rewrite Hc.
  - simpl in *. apply andb_true_iff in Hall. destruct Hall as [Ha Hall].
    rewrite Ha.
    assert (can_take hi = true) as ->.
    { destruct hi as [[|h]|]; simpl in *; trivial; lia. }
    simpl. rewrite (IH (pred lo) (option_map pred hi) (Some a)); trivial.
    + lia.
    + destruct hi; simpl in *; trivial; lia.
    + destruct Hstop as [-> | Hc]; [left; reflexivity | now right].
Qed.

(** ** Tracking extractor *)

Lemma first_match_wins (before after : list (string * regex))
      (name : string) (rx : regex) (body m : string) :
  Forall (fun p => search (snd p) body = None) before ->
  search rx body = Some m ->
  first_match (before ++ (name, rx) :: after) body = (name, m).
Proof.
  intros Hb Hm. induction Hb as [|[n r] before Hn _ IH]; simpl.
  - now rewrite Hm.
  - simpl in Hn. now rewrite Hn.
Qed.

Lemma first_match_none (pats : list (string * regex)) (body : string) :
  Forall (fun p => search (snd p) body = None) pats ->
  first_match pats body = ("", "").
Proof.
  intros H. induction H as [|[n r] pats Hn _ IH]; simpl; [reflexivity|].
  simpl in Hn. now rewrite Hn.
Qed.

Lemma first_match_cases (pats : list (string * regex)) (body : string) :
  first_match pats body = ("", "") \/
  exists name rx m, In (name, rx) pats /\ search rx body = Some m /\
                    first_match pats body = (name, m).
Proof.
  induction pats as [|[n r] pats IH]; simpl; [now left|].
  destruct (search r body) as [m|] eqn:E.
  - right. exists n, r, m. auto.
  - destruct IH as [IH | [name [rx [m [Hin [Hs Hf]]]]]]; [now left|].
    right. exists name, rx, m. auto.
Qed.

Lemma at_boundary_start (prev : option ascii) (a : ascii) (s : string) :
  word_opt prev = false -> is_word a = true ->
  at_boundary prev (String a s) = true.
Proof. unfold at_boundary. simpl. now intros -> ->. Qed.

Lemma at_boundary_end (a : ascii) (post : string) :
  is_word a = true -> word_opt (head post) = false ->
  at_boundary (Some a) post = true.
Proof. unfold at_boundary. simpl. now intros -> ->. Qed.

Lemma all_digits_last_word (ds : string) (a : ascii) :
  is_word a = true -> all_in is_digit ds = true ->
  exists z, last_of (Some a) ds = Some z /\ is_word z = true.
Proof.
  revert a. induction ds as [|d ds IH]; intros a Ha H; simpl in *.
  - eauto.
  - apply andb_true_iff in H. destruct H as [Hd H].
    apply IH; [now apply digit_is_word | exact H].
Qed.

Lemma not_word_not_digit (post : string) :
  word_opt (head post) = false ->
  match head post with Some c => is_digit c = false | None => True end.
Proof.
  destruct post as [|c post]; simpl; [intros; exact I|].
  intros H. destruct (is_digit c) eqn:E; [|reflexivity].
  apply digit_is_word in E. congruence.
Qed.

Lemma not_word_not_alnum (post : string) :
  word_opt (head post) = false ->
  match head post with
  | Some c => cset_mem true alnum_upper c = false
  | None => True
  end.
Proof.
  destruct post as [|c post]; cbn [head word_opt]; [intros; exact I|].
  intros H. apply not_true_is_false. intros E.
  apply alnum_is_word in E. congruence.
Qed.

(** A token of the UPS shape between two non-word positions. *)
Lemma ups_token (prev : option ascii) (post : string) :
  word_opt prev = false -> word_opt (head post) = false ->
  match_at RE_UPS prev ("1Z999AA10123456784" ++ post)
  = Some "1Z999AA10123456784".
Proof.
  intros Hp Hq. unfold match_at. cbn [ignorecase items RE_UPS].
  change ("1Z999AA10123456784" ++ post)
    with (String "1" (String "Z" ("999AA10123456784" ++ post))).
  cbn [match_here]. rewrite at_boundary_start by (trivial; reflexivity).
  change (lit_eq true "1" "1") with true.
  change (lit_eq true "Z" "Z") with true. cbv iota.
  rewrite repeat_greedy_run with (m := "").
  - reflexivity.
  - vm_compute. reflexivity.
  - simpl. lia.
  - simpl. lia.
  - left. reflexivity.
  - cbn [match_here last_of].
    rewrite at_boundary_end by (trivial; reflexivity). reflexivity.
Qed.

(** A run of 22 or 23 digits that starts with 9. *)
Lemma usps_token (prev : option ascii) (ds post : string) :
  word_opt prev = false -> word_opt (head post) = false ->
  all_in is_digit ds = true ->
  String.length ds = 21 \/ String.length ds = 22 ->
  match_at RE_USPS prev (String "9" ds ++ post) = Some (String "9" ds).
Proof.
  intros Hp Hq Hd Hlen. unfold match_at. cbn [ignorecase items RE_USPS].
  change (String "9" ds ++ post) with (String "9" (ds ++ post)).
  cbn [match_here]. rewrite at_boundary_start by (trivial; reflexivity).
  change (lit_eq false "9" "9") with true. cbv iota.
  destruct (@all_digits_last_word ds "9" eq_refl Hd) as [z [Hz Hw]].
  rewrite repeat_greedy_run with (m := "").
  - now rewrite app_empty_r.
  - exact Hd.
  - lia.
  - simpl. lia.
  - destruct Hlen as [H | H]; [right | left; now rewrite H].
    now apply not_word_not_digit.
  - cbn [match_here]. rewrite Hz.
    now rewrite at_boundary_end.
Qed.

(** A run of exactly ten digits. *)
Lemma dhl_token (prev : option ascii) (d : ascii) (ds post : string) :
  word_opt prev = false -> word_opt (head post) = false ->
  all_in is_digit (String d ds) = true -> String.length ds = 9 ->
  match_at RE_DHL prev (String d ds ++ post) = Some (String d ds).
Proof.
  intros Hp Hq Hd Hlen. unfold match_at. cbn [ignorecase items RE_DHL].
  cbn [match_here].
  pose proof Hd as Hd'. simpl in Hd'. apply andb_true_iff in Hd'.
  destruct Hd' as [Hd0 Hds].
  change (String d ds ++ post) with (String d (ds ++ post)) at 1.
  rewrite at_boundary_start by (trivial; now apply digit_is_word).
  destruct (@all_digits_last_word ds d (digit_is_word _ Hd0) Hds)
    as [z [Hz Hw]].
  rewrite repeat_greedy_run with (m := "").
  - now rewrite app_empty_r.
  - exact Hd.
  - simpl. lia.
  - simpl. lia.
  - left. simpl. now rewrite Hlen.
  - cbn [match_here last_of]. rewrite Hz.
    now rewrite at_boundary_end.
Qed.

(** The Amazon Logistics token of the specification. *)
Lemma tba_token (prev : option ascii) (post : string) :
  word_opt prev = false -> word_opt (head post) = false ->
  match_at RE_TBA prev ("TBA123456789012" ++ post) = Some "TBA123456789012".
Proof.
  intros Hp Hq. unfold match_at. cbn [ignorecase items RE_TBA].
  change ("TBA123456789012" ++ post)
    with (String "T" (String "B" (String "A" ("123456789012" ++ post)))).
  cbn [match_here]. rewrite at_boundary_start by (trivial; reflexivity).
  change (lit_eq true "T" "T") with true.
  change (lit_eq true "B" "B") with true.
  change (lit_eq true "A" "A") with true. cbv iota.
  rewrite repeat_greedy_run with (m := "").
  - reflexivity.
  - vm_compute. reflexivity.
  - simpl. lia.
  - exact I.
  - right. now apply not_word_not_alnum.
  - cbn [match_here last_of].
    rewrite at_boundary_end by (trivial; reflexivity). reflexivity.
Qed.

Lemma token_found (rx : regex) (pre tok post : string) :
  (forall prev, word_opt prev = false ->
                match_at rx prev (tok ++ post) = Some tok) ->
  delimited pre post ->
  exists m, search rx (pre ++ tok ++ post) = Some m.
Proof.
  intros H [Hp _]. unfold search.
  apply search_from_found with (m := tok). now apply H.
Qed.

Lemma last_of_app (pre s : string) (prev : option ascii) :
  last_of prev (pre ++ s) = last_of (last_of prev pre) s.
Proof. revert prev. induction pre; intros; simpl; auto. Qed.

Lemma search_from_position (rx : regex) (s : string) :
  forall prev m,
    search_from rx prev s = Some m ->
    exists pre s', s = pre ++ s' /\ match_at rx (last_of prev pre) s' = Some m.
Proof.
  induction s as [|a s IH]; intros prev m; rewrite search_from_eq.
  - destruct (match_at rx prev "") eqn:E; [|discriminate].
    intros [= <-]. exists "", "". auto.
  - destruct (match_at rx prev (String a s)) eqn:E.
    + intros [= <-]. exists "", (String a s). auto.
    + intros H. apply IH in H. destruct H as [pre [s' [-> H]]].
      exists (String a pre), s'. auto.
Qed.

(** What a successful repetition took: a run [tok] of members, within the
    bounds, followed by a match of the continuation. *)
Lemma repeat_greedy_sound (mem : ascii -> bool)
      (k : option ascii -> string -> option string) :
  forall s lo hi prev m,
    repeat_greedy mem k lo hi prev s = Some m ->
    exists tok m' rest,
      m = tok ++ m' /\ s = tok ++ rest /\ all_in mem tok = true /\
      lo <= String.length tok /\ within (String.length tok) hi /\
      k (last_of prev tok) rest = Some m'.
Proof.
  assert (Hstop : forall s lo hi prev m,
             (if Nat.eqb lo 0 then k prev s else None) = Some m ->
             exists tok m' rest,
               m = tok ++ m' /\ s = tok ++ rest /\ all_in mem tok = true /\
               lo <= String.length tok /\ within (String.length tok) hi /\
               k (last_of prev tok) rest = Some m').
  { intros s lo hi prev m. destruct (Nat.eqb_spec lo 0) as [->|];
      [|discriminate].
    intros H. exists "", m, s. simpl. repeat split; trivial.
    destruct hi; simpl; lia. }
  induction s as [|a s IH]; intros lo hi prev m; simpl.
  - apply Hstop.
  - destruct (mem a && can_take hi) eqn:Ea; [|apply Hstop].
    destruct (repeat_greedy mem k (pred lo) (option_map pred hi) (Some a) s)
      as [m1|] eqn:E; [|apply Hstop].
    intros [= <-]. apply IH in E.
    destruct E as [tok [m' [rest [-> [-> [Hall [Hlo [Hhi Hk]]]]]]]].
    apply andb_true_iff in Ea. destruct Ea as [Ha Hc].
    exists (String a tok), m', rest. simpl. rewrite Ha, Hall.
    repeat split; trivial; [lia|].
    destruct hi as [[|h]|]; simpl in *; trivial; try discriminate; lia.
Qed.

Lemma fedex_match_run (body m : string) :
  search RE_FEDEX body = Some m ->
  Substring m body /\ all_in is_digit m = true /\ 12 <= String.length m.
Proof.
  intros H. apply search_from_position in H.
  destruct H as [pre [s' [-> H]]]. unfold match_at in H.
  cbn [ignorecase items RE_FEDEX match_here] in H.
  destruct (at_boundary _ s'); [|discriminate].
  apply repeat_greedy_sound in H.
  destruct H as [tok [m' [rest [-> [-> [Hall [Hlo [_ Hk]]]]]]]].
  destruct (at_boundary _ rest); [|discriminate].
  injection Hk as <-. rewrite app_empty_r. split; [|auto].
  now exists pre, rest.
Qed.

Lemma usps_match_run (body m : string) :
  search RE_USPS body = Some m ->
  Substring m body /\ all_in is_digit m = true /\ 22 <= String.length m.
Proof.
  intros H. apply search_from_position in H.
  destruct H as [pre [s' [-> H]]]. unfold match_at in H.
  cbn [ignorecase items RE_USPS match_here] in H.
  destruct (at_boundary _ s'); [|discriminate].
  destruct s' as [|a s']; [discriminate|].
  destruct (lit_eq false "9" a) eqn:Ea; [|discriminate].
  apply Ascii.eqb_eq in Ea. subst a.
  destruct (repeat_greedy _ _ _ _ _ s') as [m1|] eqn:E; [|discriminate].
  injection H as <-. apply repeat_greedy_sound in E.
  destruct E as [tok [m' [rest [-> [-> [Hall [Hlo [_ Hk]]]]]]]].
  destruct (at_boundary _ rest); [|discriminate].
  injection Hk as <-. rewrite app_empty_r. split; [|split].
  - now exists pre, rest.
  - simpl. exact Hall.
  - simpl. lia.
Qed.

Lemma no_long_run_no_fedex (body : string) :
  digit_runs_within 10 body ->
  search RE_USPS body = None /\ search RE_FEDEX body = None.
Proof.
  intros H. split.
  - destruct (search RE_USPS body) as [m|] eqn:E; [|reflexivity].
    apply usps_match_run in E. destruct E as [Hs [Hd Hl]].
    specialize (H m Hs Hd). lia.
  - destruct (search RE_FEDEX body) as [m|] eqn:E; [|reflexivity].
    apply fedex_match_run in E. destruct E as [Hs [Hd Hl]].
    specialize (H m Hs Hd). lia.
Qed.

Lemma carrier_of_found (before after : list (string * regex))
      (name : string) (rx : regex) (body : string) :
  carrier_patterns = (before ++ (name, rx) :: after)%list ->
  Forall (fun p => search (snd p) body = None) before ->
  (exists m, search rx body = Some m) ->
  fst (detect_tracking body) = name.
Proof.
  intros E Hb [m Hm]. unfold detect_tracking. rewrite E.
  now rewrite (@first_match_wins before after name rx body m Hb Hm).
Qed.

Lemma starts_run_app (P : ascii -> bool) (k : nat) :
  forall run post,
    all_in P run = true -> k <= String.length run ->
    starts_run P k (run ++ post) = true.
Proof.
  induction k as [|k IH]; intros run post Hall Hk; [reflexivity|].
  destruct run as [|c run]; [simpl in Hk; lia|].
  simpl in *. apply andb_true_iff in Hall. destruct Hall as [Hc Hall].
  rewrite Hc. apply IH; [exact Hall | lia].
Qed.

Lemma has_run_substring (P : ascii -> bool) (k : nat) (run s : string) :
  Substring run s -> all_in P run = true -> k <= String.length run ->
  has_run P k s = true.
Proof.
  intros [pre [post ->]] Hall Hk.
  induction pre as [|c pre IH].
  - destruct (run ++ post) eqn:E; simpl; rewrite <- E;
      now rewrite starts_run_app.
  - change (String c pre ++ run ++ post) with (String c (pre ++ run ++ post)).
    cbn [has_run]. rewrite IH. apply orb_true_r.
Qed.

(** A text without a run of [n + 1] digits has its runs of digits within
    [n]. *)
Lemma no_run_within (n : nat) (s : string) :
  has_run is_digit (S n) s = false -> digit_runs_within n s.
Proof.
  intros H run Hs Hd.
  destruct (le_lt_dec (String.length run) n) as [|Hlong]; [assumption|].
  rewrite (@has_run_substring is_digit (S n) run s Hs Hd) in H;
    [discriminate H | lia].
Qed.

(** C3, as stated: a body that contains a token need not give its carrier.
    The UPS token right after a letter has no word boundary before it and
    nothing is found; a ten-digit number, in a body without a longer run of
    digits, loses to a UPS token elsewhere. *)
Lemma token_in_body_is_not_enough :
  Substring "1Z999AA10123456784" "X1Z999AA10123456784" /\
  detect_tracking "X1Z999AA10123456784" = ("", "") /\
  Substring "1234567890" "1ZABCDEFGHIJKLMNOP 1234567890" /\
  digit_runs_within 10 "1ZABCDEFGHIJKLMNOP 1234567890" /\
  detect_tracking "1ZABCDEFGHIJKLMNOP 1234567890"
  = ("UPS", "1ZABCDEFGHIJKLMNOP").
Proof.
  split; [apply contains_spec; reflexivity|].
  split; [vm_compute; reflexivity|].
  split; [apply contains_spec; reflexivity|].
  split; [|vm_compute; reflexivity].
  apply no_run_within. vm_compute. reflexivity.
Qed.

(** C3, amended: the patterns are tried in the order UPS, USPS, FedEx, DHL,
    Amazon Logistics; the first one with a match anywhere in the body gives
    the result, whatever patterns come after it; without any match the
    result is the pair of empty strings.  The tokens of the specification
    give their carriers when they are the body, and when they stand in it
    between two word boundaries and no earlier pattern has a match in the
    body. *)
Theorem detect_tracking_first_pattern_wins :
  map fst carrier_patterns = ["UPS"; "USPS"; "FedEx"; "DHL"; "Amazon Logistics"]
  /\
  (forall body before name rx after m,
      carrier_patterns = (before ++ (name, rx) :: after)%list ->
      Forall (fun p => search (snd p) body = None) before ->
      search rx body = Some m ->
      detect_tracking body = (name, m) /\
      forall later, first_match (before ++ (name, rx) :: later) body = (name, m))
  /\
  (forall body,
      Forall (fun p => search (snd p) body = None) carrier_patterns ->
      detect_tracking body = ("", ""))
  /\
  (forall pre post,
      delimited pre post ->
      fst (detect_tracking (pre ++ "1Z999AA10123456784" ++ post)) = "UPS")
  /\
  (forall pre ds post,
      delimited pre post ->
      all_in is_digit ds = true -> String.length ds = 21 ->
      search RE_UPS (pre ++ String "9" ds ++ post) = None ->
      fst (detect_tracking (pre ++ String "9" ds ++ post)) = "USPS")
  /\
  (forall pre ds post,
      delimited pre post ->
      all_in is_digit ds = true -> String.length ds = 10 ->
      digit_runs_within 10 (pre ++ ds ++ post) ->
      search RE_UPS (pre ++ ds ++ post) = None ->
      fst (detect_tracking (pre ++ ds ++ post)) = "DHL")
  /\
  (forall pre post,
      delimited pre post ->
      search RE_UPS (pre ++ "TBA123456789012" ++ post) = None ->
      search RE_USPS (pre ++ "TBA123456789012" ++ post) = None ->
      search RE_FEDEX (pre ++ "TBA123456789012" ++ post) = None ->
      search RE_DHL (pre ++ "TBA123456789012" ++ post) = None ->
      fst (detect_tracking (pre ++ "TBA123456789012" ++ post))
      = "Amazon Logistics")
  /\
  detect_tracking "1Z999AA10123456784" = ("UPS", "1Z999AA10123456784") /\
  detect_tracking "9400100000000000000000"
  = ("USPS", "9400100000000000000000") /\
  detect_tracking "1234567890" = ("DHL", "1234567890") /\
  detect_tracking "TBA123456789012" = ("Amazon Logistics", "TBA123456789012").
Proof.
  split; [reflexivity|].
  split.
  { intros body before name rx after m E Hb Hm. split.
    - unfold detect_tracking. rewrite E. now apply first_match_wins.
    - intros later. now apply first_match_wins. }
  split; [intros body H; now apply first_match_none|].
  split.
  { intros pre post D.
    apply carrier_of_found with (before := []) (rx := RE_UPS)
                                (after := tl carrier_patterns);
      [reflexivity | constructor |].
    apply token_found; [|exact D].
    intros prev Hp. destruct D as [_ Hq]. now apply ups_token. }
  split.
  { intros pre ds post D Hd Hl Hups.
    apply carrier_of_found
      with (before := [("UPS", RE_UPS)]) (rx := RE_USPS)
           (after := tl (tl carrier_patterns));
      [reflexivity | repeat constructor; exact Hups |].
    apply token_found; [|exact D].
    intros prev Hp. destruct D as [_ Hq]. apply usps_token; auto. }
  split.
  { intros pre ds post D Hd Hl Hruns Hups.
    destruct (no_long_run_no_fedex Hruns) as [Husps Hfedex].
    apply carrier_of_found
      with (before := [("UPS", RE_UPS); ("USPS", RE_USPS); ("FedEx", RE_FEDEX)])
           (rx := RE_DHL) (after := [("Amazon Logistics", RE_TBA)]);
      [reflexivity | repeat constructor; assumption |].
    apply token_found; [|exact D].
    intros prev Hp. destruct D as [_ Hq].
    destruct ds as [|d ds]; [discriminate|].
    apply dhl_token; auto. }
  split.
  { intros pre post D Hups Husps Hfedex Hdhl.
    apply carrier_of_found
      with (before := [("UPS", RE_UPS); ("USPS", RE_USPS); ("FedEx", RE_FEDEX);
                       ("DHL", RE_DHL)])
           (rx := RE_TBA) (after := []);
      [reflexivity | repeat constructor; assumption |].
    apply token_found; [|exact D].
    intros prev Hp. destruct D as [_ Hq]. now apply tba_token. }
  repeat split; vm_compute; reflexivity.
Qed.

Lemma example_digit_runs :
  digit_runs_within 10 "Call 1234567890, ref 42.".
Proof.
  intros run Hs Hd.
  destruct (le_lt_dec (String.length run) 10) as [|Hlong]; [assumption|].
  exfalso. destruct Hs as [pre [post E]].
  assert (Hlen : String.length pre + String.length run + String.length post
                 = 24).
  { change 24 with (String.length "Call 1234567890, ref 42.").
    rewrite E. clear.
    assert (L : forall x y, String.length (x ++ y)
                            = String.length x + String.length y)
      by (induction x; intros; simpl; auto).
    rewrite !L. lia. }
  do 14 (destruct pre as [|? pre];
         [ simpl in E;
           do 11 (destruct run as [|? run]; [simpl in Hlong; lia|]);
           simpl in E; injection E as <- <- <- <- <- <- <- <- <- <- <-;
           intros; simpl in Hd; discriminate Hd
         | simpl in E; injection E as <- E ]).
  simpl in Hlen. lia.
Qed.

Lemma detect_tracking_first_pattern_wins_witness :
  fst (detect_tracking "Your parcel: 1Z999AA10123456784.") = "UPS" /\
  fst (detect_tracking "Label 9400100000000000000000 created") = "USPS" /\
  fst (detect_tracking "Call 1234567890, ref 42.") = "DHL" /\
  fst (detect_tracking "(TBA123456789012)") = "Amazon Logistics" /\
  detect_tracking "no numbers here" = ("", "") /\
  detect_tracking "id 123456789012 and TBA1" = ("FedEx", "123456789012").
Proof.
  pose proof detect_tracking_first_pattern_wins
    as [_ [Hfirst [Hnone [Hups [Husps [Hdhl [Htba _]]]]]]].
  split; [|split; [|split; [|split; [|split]]]].
  - apply (Hups "Your parcel: " "."). split; reflexivity.
  - apply (Husps "Label " "400100000000000000000" " created");
      try reflexivity. split; reflexivity.
  - apply (Hdhl "Call " "1234567890" ", ref 42."); try reflexivity.
    + split; reflexivity.
    + apply example_digit_runs.
  - apply (Htba "(" ")"); try reflexivity. split; reflexivity.
  - apply Hnone. repeat constructor.
  - apply (Hfirst _ [("UPS", RE_UPS); ("USPS", RE_USPS)] "FedEx" RE_FEDEX
                  [("DHL", RE_DHL); ("Amazon Logistics", RE_TBA)]);
      try reflexivity. repeat constructor.
Defined.

Lemma carrier_match_nonempty (name : string) (rx : regex) (body m : string) :
  In (name, rx) carrier_patterns -> search rx body = Some m ->
  name <> "" /\ m <> "".
Proof.
  intros Hin Hm. apply search_length in Hm.
  assert (name <> "" /\ 1 <= min_len (items rx)) as [Hn Hl].
  { simpl in Hin.
    repeat (destruct Hin as [[= <- <-] | Hin];
            [split; [discriminate | simpl; lia]|]).
    destruct Hin. }
  split; [exact Hn|]. intros ->. simpl in Hm. lia.
Qed.

Lemma detect_tracking_shape (body : string) :
  detect_tracking body = ("", "") \/
  In (fst (detect_tracking body))
     ["UPS"; "USPS"; "FedEx"; "DHL"; "Amazon Logistics"] /\
  snd (detect_tracking body) <> "".
Proof.
  unfold detect_tracking.
  destruct (first_match_cases carrier_patterns body)
    as [H | [name [rx [m [Hin [Hs Hf]]]]]]; [now left|].
  right. rewrite Hf. simpl fst. simpl snd. split.
  - change ["UPS"; "USPS"; "FedEx"; "DHL"; "Amazon Logistics"]
      with (map fst carrier_patterns).
    now apply (in_map fst) in Hin.
  - now destruct (@carrier_match_nonempty _ _ _ _ Hin Hs).
Qed.

Lemma detect_tracking_both_or_none (body : string) :
  fst (detect_tracking body) = "" <-> snd (detect_tracking body) = "".
Proof.
  destruct (detect_tracking_shape body) as [-> | [Hin Hne]]; [tauto|].
  split; [|tauto]. intros E. rewrite E in Hin. simpl in Hin.
  repeat (destruct Hin as [Hin | Hin]; [discriminate Hin|]). destruct Hin.
Qed.

Lemma process_row_both_or_none (L : stdlib) (imap : imap_session)
      (r : sheet_row) (out : OutputRecord) :
  process_row L imap r = Ok (Some out) ->
  (carrier out = "" <-> tracking out = "").
Proof.
  unfold process_row.
  destruct (negb (nonempty (order_of r))); [discriminate|].
  destruct (search_latest_for_order L imap (order_of r) (site_of r))
    as [[msg|]|e]; simpl; [| intros [= <-]; simpl; tauto | discriminate].
  destruct (negb (msg_truthy msg)); [intros [= <-]; simpl; tauto|].
  destruct (dec L _) as [subj|]; simpl; [|discriminate].
  destruct (dec L _) as [date|]; simpl; [|discriminate].
  destruct (get_body L msg) as [body|]; simpl; [|discriminate].
  pose proof (detect_tracking_both_or_none body) as H.
  destruct (detect_tracking body) as [c t]. intros [= <-]. exact H.
Qed.

Lemma main_loop_rows (L : stdlib) (imap : imap_session)
      (rows : list sheet_row) (out : OutputRecord) :
  In out (fst (main_loop L imap rows)) ->
  exists r, In r rows /\ process_row L imap r = Ok (Some out).
Proof.
  induction rows as [|r rows IH]; simpl; [tauto|].
  destruct (process_row L imap r) as [[o|]|e] eqn:E.
  - destruct (main_loop L imap rows) as [written ending]. simpl in *.
    intros [<- | H]; [eauto|].
    destruct (IH H) as [r' [Hin Hr]]. eauto.
  - intros H. destruct (IH H) as [r' [Hin Hr]]. eauto.
  - simpl. tauto.
Qed.

(** C9: the tracking extractor returns either the two empty strings or one
    of the five carrier names with a non-empty number, and in every row
    that the driver writes the carrier is empty exactly when the tracking
    number is. *)
Theorem carrier_empty_iff_tracking_empty :
  (forall body,
      detect_tracking body = ("", "") \/
      In (fst (detect_tracking body))
         ["UPS"; "USPS"; "FedEx"; "DHL"; "Amazon Logistics"] /\
      snd (detect_tracking body) <> "") /\
  (forall L imap order site,
      carrier (pending_row order site) = "" /\
      tracking (pending_row order site) = "" /\
      forall rows out,
        In out (fst (main_loop L imap rows)) ->
        (carrier out = "" <-> tracking out = "")).
Proof.
  split; [exact detect_tracking_shape|].
  intros L imap order site. split; [reflexivity|]. split; [reflexivity|].
  intros rows out H. apply main_loop_rows in H. destruct H as [r [_ H]].
  now apply process_row_both_or_none in H.
Qed.

Lemma carrier_empty_iff_tracking_empty_witness :
  carrier (Row "Z999" "" "Pending" "" "" "" "") = "" <->
  tracking (Row "Z999" "" "Pending" "" "" "" "") = "".
Proof.
  apply (proj2 (proj2 (proj2 carrier_empty_iff_tracking_empty
                         example_lib example_imap "" "")) (tl example_rows)).
  vm_compute. tauto.
Defined.

(** ** Mailbox search *)






Section PipelineProperties.

Variable L : stdlib.
Variable imap : imap_session.





End PipelineProperties.




(** ** Driver *)

Section DriverProperties.

Variable L : stdlib.
Variable imap : imap_session.



Lemma main_loop_raise (r : sheet_row) (rows : list sheet_row) (e : exn) :
  process_row L imap r = Raise e ->
  main_loop L imap (r :: rows) = ([], Raise e).
Proof. intros H. simpl. now rewrite H. Qed.

Lemma process_row_fields (r : sheet_row) (out : option OutputRecord) :
  process_row L imap r = Ok out ->
  match out with
  | Some o => nonempty (order_of r) = true /\
              order_number o = order_of r /\ site o = site_of r
  | None => nonempty (order_of r) = false
  end.
Proof.
  unfold process_row. destruct (nonempty (order_of r)); simpl;
    [|now intros [= <-]].
  destruct (search_latest_for_order L imap (order_of r) (site_of r))
    as [[msg|]|e]; simpl; [| now intros [= <-] | discriminate].
  destruct (negb (msg_truthy msg)); [now intros [= <-]|].
  destruct (dec L _) as [subj|]; simpl; [|discriminate].
  destruct (dec L _) as [date|]; simpl; [|discriminate].
  destruct (get_body L msg) as [body|]; simpl; [|discriminate].
  destruct (detect_tracking body) as [c t]. now intros [= <-].
Qed.

(** When no row of the sheet raises, the rows written are those of the
    orders with a number, one each and in order. *)
Lemma main_loop_one_row_each (rows : list sheet_row) :
  snd (main_loop L imap rows) = Ok tt ->
  map (fun o => (order_number o, site o)) (fst (main_loop L imap rows))
  = filter (fun p => nonempty (fst p))
           (map (fun r => (order_of r, site_of r)) rows).
Proof.
  induction rows as [|r rows IH]; simpl; [reflexivity|].
  destruct (process_row L imap r) as [[o|]|e] eqn:E.
  - apply process_row_fields in E. destruct E as [Hne [Ho Hs]].
    destruct (main_loop L imap rows) as [written ending]. simpl in *.
    intros H. rewrite Hne, Ho, Hs, IH by exact H. reflexivity.
  - apply process_row_fields in E. rewrite E. exact IH.
  - discriminate.
Qed.


End DriverProperties.


(** ** Header decoding *)

Section HeaderProperties.

Variable L : stdlib.

Lemma dec_empty : dec L "" = Ok "".
Proof. reflexivity. Qed.

(** The segments that decode are concatenated in order. *)
Lemma dec_segments_ok (segs : list (segment * option string))
      (texts : list string) :
  Forall2 (fun seg t => dec_segment L seg = Ok t) segs texts ->
  dec_segments L segs = Ok (fold_right String.append "" texts).
Proof.
  induction 1 as [|seg t segs texts Hseg _ IH]; simpl; [reflexivity|].
  now rewrite Hseg, IH.
Qed.

(** A text segment is kept as it is, and a bytes segment without a declared
    character set is decoded as UTF-8. *)
Lemma dec_segment_cases (seg : segment * option string) :
  dec_segment L seg =
  match seg with
  | (SegStr t, _) => Ok t
  | (SegBytes bs, None) => bytes_decode L bs "utf-8"
  | (SegBytes bs, Some "") => bytes_decode L bs "utf-8"
  | (SegBytes bs, Some enc) => bytes_decode L bs enc
  end.
Proof. destruct seg as [[bs|t] [[|c enc]|]]; reflexivity. Qed.

(** A bytes segment whose declared character set has no codec makes the
    whole header decoding raise. *)
Lemma dec_segments_unknown_charset
      (before after : list (segment * option string)) (texts : list string)
      (bs : bytes) (enc : string) :
  Forall2 (fun seg t => dec_segment L seg = Ok t) before texts ->
  enc <> "" -> codec L enc = None ->
  dec_segments L (before ++ (SegBytes bs, Some enc) :: after)
  = Raise LookupError.
Proof.
  intros Hb Hne Hc. induction Hb as [|seg t segs texts Hseg _ IH]; simpl.
  - unfold dec_segment, bytes_decode. simpl.
    destruct enc as [|c enc]; [now destruct Hne|]. simpl. now rewrite Hc.
  - now rewrite Hseg, IH.
Qed.

Lemma dec_raises_through_process_row (imap : imap_session) (r : sheet_row)
      (msg : message) (e : exn) (rows : list sheet_row) :
  nonempty (order_of r) = true ->
  search_latest_for_order L imap (order_of r) (site_of r) = Ok (Some msg) ->
  msg_truthy msg = true ->
  dec L (or_else (msg_get (headers_of msg) "Subject") "") = Raise e ->
  main_loop L imap (r :: rows) = ([], Raise e).
Proof.
  intros Hne Hs Ht Hd. apply main_loop_raise. unfold process_row.
  rewrite Hne, Hs. cbn [negb bind]. rewrite Ht. cbn [negb].
  now rewrite Hd.
Qed.

End HeaderProperties.

(** C7: the header [=?x-unknown?q?hi?=], which [decode_header] splits into
    the bytes "hi" with the character set "x-unknown", makes [dec] raise
    [LookupError]: a declared character set without a codec is not replaced
    by anything.  An empty header gives "", and plain text is returned as it
    is. *)
Theorem dec_raises_on_unknown_charset :
  decode_header example_lib bad_subject
  = Ok [(SegBytes (b "hi"), Some "x-unknown")] /\
  codec example_lib "x-unknown" = None /\
  dec example_lib bad_subject = Raise LookupError /\
  dec example_lib "" = Ok "" /\
  dec example_lib "Your order" = Ok "Your order".
Proof. repeat split. Qed.

(** C4: the first order of the example sheet matches a message whose
    subject names an unknown character set; the exception of [dec] leaves
    the loop, and the two later orders with a number get no row, although
    each gets one when the sheet starts after the first order. *)
Theorem failed_header_decode_stops_the_run :
  map order_of example_rows = ["A100"; "B200"; ""; "Z999"] /\
  main_loop example_lib example_imap example_rows = ([], Raise LookupError) /\
  map (fun o => (order_number o, site o))
      (fst (main_loop example_lib example_imap (tl example_rows)))
  = [("B200", "shop"); ("Z999", "")] /\
  snd (main_loop example_lib example_imap (tl example_rows)) = Ok tt.
Proof. repeat split. Qed.

(** ** Substitution *)

Lemma length_app_s (x y : string) :
  String.length (x ++ y) = String.length x + String.length y.
Proof. induction x; simpl; auto. Qed.

(** A run of members of a set stops before the first non-member. *)
Lemma run_stops (P : ascii -> bool) (c : ascii) (v r : string) :
  P c = false ->
  forall tok u,
    all_in P tok = true -> tok ++ r = u ++ String c v ->
    String.length tok <= String.length u.
Proof.
  intros Hc. induction tok as [|a tok IH]; intros u Hall E; simpl; [lia|].
  simpl in Hall. apply andb_true_iff in Hall. destruct Hall as [Ha Hall].
  destruct u as [|a' u]; simpl in E; injection E as -> E.
  - congruence.
  - specialize (IH u Hall E). simpl. lia.
Qed.

(** The substitution goes through a prefix [x] that no match leaves, and
    starts afresh after it. *)
Lemma sub_from_passes (rx : regex) (repl rest : string) :
  forall x skip prev,
    skip <= String.length x ->
    (forall x1 x2 prev' m,
        x = x1 ++ x2 -> match_at rx prev' (x2 ++ rest) = Some m ->
        String.length m <= String.length x2) ->
    exists out,
      sub_from rx repl skip prev (x ++ rest)
      = out ++ sub_from rx repl 0 (last_of prev x) rest.
Proof.
  induction x as [|a x IH]; intros skip prev Hskip H.
  - simpl in Hskip. assert (skip = 0) as -> by lia. now exists "".
  - assert (H' : forall x1 x2 prev' m,
               x = x1 ++ x2 -> match_at rx prev' (x2 ++ rest) = Some m ->
               String.length m <= String.length x2).
    { intros x1 x2 prev' m -> Hm. now apply (H (String a x1) x2 prev' m). }
    destruct skip as [|n]; simpl.
    + destruct (match_at rx prev (String a (x ++ rest))) as [m|] eqn:E.
      * apply (H "" (String a x) prev m eq_refl) in E. simpl in E.
        destruct (String.length m) as [|n].
        -- destruct (IH 0 (Some a)) as [out Hout]; [lia | exact H' |].
           exists (repl ++ String a out). rewrite Hout.
           rewrite app_assoc_s. reflexivity.
        -- destruct (IH n (Some a)) as [out Hout]; [lia | exact H' |].
           exists (repl ++ out). rewrite Hout.
           now rewrite app_assoc_s.
      * destruct (IH 0 (Some a)) as [out Hout]; [lia | exact H' |].
        exists (String a out). now rewrite Hout.
    + simpl in Hskip. destruct (IH n (Some a)) as [out Hout];
        [lia | exact H' |].
      exists out. exact Hout.
Qed.

Lemma suffix_cases (t : string) :
  forall x1 x2 pre,
    x1 ++ x2 = pre ++ t ->
    (exists p2, x2 = p2 ++ t) \/ (exists c t1, t = String c t1 ++ x2).
Proof.
  induction x1 as [|c x1 IH]; intros x2 pre E; simpl in E.
  - left. now exists pre.
  - destruct pre as [|c' pre]; simpl in E.
    + right. exists c, x1. now rewrite <- E.
    + injection E as -> E. now apply IH with (pre := pre).
Qed.

Lemma tag_match_shape (prev : option ascii) (s m : string) :
  match_at RE_TAG prev s = Some m ->
  exists tok r,
    m = String "<" (tok ++ ">") /\ s = String "<" (tok ++ String ">" r) /\
    all_in not_gt tok = true.
Proof.
  unfold match_at. cbn [ignorecase items RE_TAG match_here].
  destruct s as [|a s]; [discriminate|].
  destruct (lit_eq false "<" a) eqn:Ea; [|discriminate].
  apply Ascii.eqb_eq in Ea. subst a.
  destruct (repeat_greedy _ _ _ _ _ s) as [m1|] eqn:E; [|discriminate].
  intros [= <-]. apply repeat_greedy_sound in E.
  destruct E as [tok [m' [rest [-> [-> [Hall [_ [_ Hk]]]]]]]].
  destruct rest as [|c rest]; [discriminate|].
  destruct (lit_eq false ">" c) eqn:Ec; [|discriminate].
  apply Ascii.eqb_eq in Ec. subst c. injection Hk as <-.
  now exists tok, rest.
Qed.

Lemma spaces_match_shape (prev : option ascii) (s m : string) :
  match_at RE_SPACES prev s = Some m ->
  exists r, s = m ++ r /\ all_in is_space m = true.
Proof.
  unfold match_at. cbn [ignorecase items RE_SPACES match_here].
  intros E. apply repeat_greedy_sound in E.
  destruct E as [tok [m' [rest [-> [-> [Hall [_ [_ Hk]]]]]]]].
  injection Hk as <-. rewrite app_empty_r. now exists rest.
Qed.

(** The tags are stripped around the sentence, wherever it stands. *)
Lemma strip_tags_keeps_sentence (pre post : string) :
  exists out1 out2,
    re_sub RE_TAG " " (pre ++ shipped_html ++ post)
    = out1 ++ "Your order has shipped" ++ String " " out2.
Proof.
  unfold re_sub.
  replace (pre ++ shipped_html ++ post)
    with ((pre ++ "<b>") ++ "Your order has shipped</b>" ++ post)
    by (rewrite app_assoc_s; reflexivity).
  destruct (@sub_from_passes RE_TAG " " ("Your order has shipped</b>" ++ post)
              (pre ++ "<b>") 0 None) as [out Hout]; [lia | |].
  - intros x1 x2 prev' m E Hm. apply tag_match_shape in Hm.
    destruct Hm as [tok [r [-> [Es Hall]]]].
    symmetry in E. apply suffix_cases in E.
    destruct E as [[p2 ->] | [c [t1 E]]].
    + rewrite app_assoc_s in Es. destruct p2 as [|c p2].
      * simpl in Es. injection Es as Es.
        assert (Es' : tok ++ String ">" r
                      = "b" ++ String ">" ("Your order has shipped</b>" ++ post))
          by (symmetry; exact Es).
        apply (@run_stops not_gt ">" _ _ eq_refl tok "b" Hall) in Es'.
        simpl in *. rewrite length_app_s. simpl. lia.
      * simpl in Es. injection Es as Ec Es.
        assert (Es' : tok ++ String ">" r
                      = (p2 ++ "<b")
                          ++ String ">" ("Your order has shipped</b>" ++ post))
          by (rewrite app_assoc_s; symmetry; exact Es).
        apply (@run_stops not_gt ">" _ _ eq_refl tok _ Hall) in Es'.
        cbn [String.length]. rewrite !length_app_s in *.
        cbn [String.length] in *. clear - Es'. lia.
    + exfalso.
      destruct t1 as [|c1 [|c2 [|c3 t1]]]; simpl in E; inversion E; subst;
        simpl in Es; discriminate Es.
  - exists out, (sub_from RE_TAG " " 0 (Some ">"%char) post).
    rewrite Hout. f_equal.
Qed.

(** Collapsing the white space keeps the sentence, wherever it stands. *)
Lemma collapse_keeps_sentence (x y : string) :
  exists out1 out2,
    re_sub RE_SPACES " " (x ++ "Your order has shipped" ++ String " " y)
    = out1 ++ "Your order has shipped" ++ out2.
Proof.
  unfold re_sub.
  destruct (@sub_from_passes RE_SPACES " "
              ("Your order has shipped" ++ String " " y) x 0 None)
    as [out Hout]; [lia | |].
  - intros x1 x2 prev' m _ Hm. apply spaces_match_shape in Hm.
    destruct Hm as [r [E Hall]]. symmetry in E.
    now apply (@run_stops is_space "Y" _ r eq_refl m x2 Hall) in E.
  - exists out, (sub_from RE_SPACES " " 0 (Some "d"%char) (String " " y)).
    rewrite Hout. f_equal.
Qed.

Lemma all_in_app (P : ascii -> bool) (x y : string) :
  all_in P (x ++ y) = all_in P x && all_in P y.
Proof. induction x as [|a x IH]; simpl; [reflexivity|]. now rewrite IH, andb_assoc. Qed.

Lemma sub_from_all_in (P : ascii -> bool) (rx : regex) (repl : string) :
  all_in P repl = true ->
  forall s skip prev,
    all_in P s = true -> all_in P (sub_from rx repl skip prev s) = true.
Proof.
  intros Hr. induction s as [|a s IH]; intros skip prev Hs.
  - destruct skip; simpl; [|reflexivity].
    destruct (match_at rx prev ""); [|reflexivity].
    now rewrite all_in_app, Hr.
  - simpl in Hs. apply andb_true_iff in Hs. destruct Hs as [Ha Hs].
    destruct skip as [|n]; simpl; [|now apply IH].
    destruct (match_at rx prev (String a s)) as [m|].
    + rewrite all_in_app, Hr. simpl.
      destruct (String.length m); simpl; [rewrite Ha; simpl|]; now apply IH.
    + simpl. rewrite Ha. simpl. now apply IH.
Qed.

Lemma amp_free_spec (s : string) :
  contains "&" s = false <-> all_in not_amp s = true.
Proof.
  induction s as [|c s IH]; [split; reflexivity|].
  rewrite contains_cons, orb_false_iff, IH. cbn [all_in prefix].
  destruct (ascii_dec "&" c) as [<- | ne].
  - change (not_amp "&") with false.
    assert (prefix "" s = true) as -> by (destruct s; reflexivity).
    simpl. split; [intros [H _]; discriminate H | discriminate].
  - assert (not_amp c = true) as ->.
    { unfold not_amp. apply negb_true_iff, Ascii.eqb_neq. congruence. }
    simpl. tauto.
Qed.

Lemma Substring_lower (h s : string) :
  Substring h s -> Substring (lower h) (lower s).
Proof.
  intros [p [q ->]]. exists (lower p), (lower q). now rewrite !lower_app.
Qed.

(** The two substitutions of [html_to_text] keep the sentence of the
    markup and bring in no ampersand. *)
Lemma html_text_keeps_sentence (pre post : string) :
  contains "&" (pre ++ shipped_html ++ post) = false ->
  let text :=
    re_sub RE_SPACES " " (re_sub RE_TAG " " (pre ++ shipped_html ++ post)) in
  contains "&" text = false /\ Substring "Your order has shipped" text.
Proof.
  intros Hamp. cbv zeta. split.
  - apply amp_free_spec. apply amp_free_spec in Hamp. unfold re_sub.
    apply sub_from_all_in; [reflexivity|].
    now apply sub_from_all_in.
  - destruct (strip_tags_keeps_sentence pre post) as [o1 [o2 ->]].
    destruct (collapse_keeps_sentence o1 o2) as [u1 [u2 ->]].
    now exists u1, u2.
Qed.

(** ** Body extraction *)

Section BodyProperties.

Variable L : stdlib.

Lemma part_loop_skip (ctype : string) (post : string -> string)
      (before rest : list message) (k : result string) :
  none_decodes L ctype before ->
  part_loop L ctype post (before ++ rest) k = part_loop L ctype post rest k.
Proof.
  induction before as [|q before IH]; intros H; simpl; [reflexivity|].
  assert (Hrest : none_decodes L ctype before).
  { intros q' Hin. apply H. now right. }
  destruct (get_content_type q =? ctype) eqn:E; [|now apply IH].
  apply String.eqb_eq in E. specialize (H q (or_introl eq_refl) E).
  destruct (decode_part L q); [discriminate H|]. simpl. now apply IH.
Qed.

Lemma part_loop_hit (ctype : string) (post : string -> string)
      (p : message) (after : list message) (k : result string) (t : string) :
  get_content_type p = ctype -> decode_part L p = Ok t ->
  part_loop L ctype post (p :: after) k = Ok (post t).
Proof.
  intros Hc Hd. simpl. rewrite Hc, String.eqb_refl, Hd. reflexivity.
Qed.

Lemma part_loop_returns (ctype : string) (post : string -> string)
      (ps : list message) (k : result string) :
  (exists t, k = Ok t) -> exists t, part_loop L ctype post ps k = Ok t.
Proof.
  intros Hk. induction ps as [|p ps IH]; simpl; [exact Hk|].
  destruct (get_content_type p =? ctype); [|exact IH].
  destruct (decode_part L p) as [t|e]; simpl; eauto.
Qed.

Lemma get_body_returns (msg : message) : exists t, get_body L msg = Ok t.
Proof.
  unfold get_body. destruct (is_multipart msg).
  - apply part_loop_returns, part_loop_returns. eauto.
  - destruct (decode_part L msg); simpl; eauto.
Qed.

Lemma multipart_not_decoded (hs : list (string * string)) (ct : string)
      (cs : option string) (ps : list message) :
  decode_part L (Multipart hs ct cs ps) = Raise AttributeError.
Proof. reflexivity. Qed.

Lemma get_body_first_plain (msg : message) (before : list message)
      (p : message) (after : list message) (text : string) :
  is_multipart msg = true ->
  walk msg = (before ++ p :: after)%list ->
  none_decodes L "text/plain" before ->
  get_content_type p = "text/plain" -> decode_part L p = Ok text ->
  get_body L msg = Ok text.
Proof.
  intros Hm Hw Hb Hc Hd. unfold get_body.
  rewrite Hm, Hw, part_loop_skip by exact Hb.
  now apply part_loop_hit with (post := fun t => t).
Qed.

Lemma get_body_no_plain (msg : message) :
  is_multipart msg = true ->
  none_decodes L "text/plain" (walk msg) ->
  get_body L msg
  = part_loop L "text/html" (html_to_text L) (walk msg) (Ok "").
Proof.
  intros Hm Hp. unfold get_body. rewrite Hm.
  rewrite <- (app_nil_r (walk msg)) at 1.
  now rewrite part_loop_skip by exact Hp.
Qed.

Lemma get_body_first_html (msg : message) (before : list message)
      (p : message) (after : list message) (text : string) :
  is_multipart msg = true ->
  none_decodes L "text/plain" (walk msg) ->
  walk msg = (before ++ p :: after)%list ->
  none_decodes L "text/html" before ->
  get_content_type p = "text/html" -> decode_part L p = Ok text ->
  get_body L msg
  = Ok (unescape L (re_sub RE_SPACES " " (re_sub RE_TAG " " text))).
Proof.
  intros Hm Hp Hw Hb Hc Hd. rewrite get_body_no_plain by assumption.
  rewrite Hw, part_loop_skip by exact Hb.
  now apply part_loop_hit with (post := html_to_text L).
Qed.

Lemma get_body_nothing_decodes (msg : message) :
  is_multipart msg = true ->
  none_decodes L "text/plain" (walk msg) ->
  none_decodes L "text/html" (walk msg) ->
  get_body L msg = Ok "".
Proof.
  intros Hm Hp Hh. rewrite get_body_no_plain by assumption.
  rewrite <- (app_nil_r (walk msg)).
  now rewrite part_loop_skip by exact Hh.
Qed.

End BodyProperties.

(** * Further properties *)

(** ** Shape of a match *)

Lemma match_here_prefix (ic : bool) (its : list item) :
  forall prev s m,
    match_here ic its prev s = Some m -> exists rest, s = m ++ rest.
Proof.
  induction its as [|it its IH]; intros prev s m; simpl.
  - intros [= <-]. now exists s.
  - destruct it as [|c|cs lo hi].
    + destruct (at_boundary prev s); [apply IH | discriminate].
    + destruct s as [|a s]; [discriminate|].
      destruct (lit_eq ic c a); [|discriminate].
      destruct (match_here ic its (Some a) s) as [m'|] eqn:E; [|discriminate].
      intros [= <-]. apply IH in E. destruct E as [rest ->]. now exists rest.
    + intros H. apply repeat_greedy_sound in H.
      destruct H as [tok [m' [rest [-> [-> [_ [_ [_ Hk]]]]]]]].
      apply IH in Hk. destruct Hk as [rest' ->]. exists rest'.
      now rewrite app_assoc_s.
Qed.

Lemma match_here_all_in (P : ascii -> bool) (ic : bool) (its : list item) :
  items_within P ic its ->
  forall prev s m, match_here ic its prev s = Some m -> all_in P m = true.
Proof.
  induction 1 as [|it its Hit _ IH]; intros prev s m; simpl.
  - now intros [= <-].
  - destruct it as [|c|cs lo hi].
    + destruct (at_boundary prev s); [apply IH | discriminate].
    + destruct s as [|a s]; [discriminate|].
      destruct (lit_eq ic c a) eqn:Ea; [|discriminate].
      destruct (match_here ic its (Some a) s) as [m'|] eqn:E; [|discriminate].
      intros [= <-]. simpl. rewrite (Hit a Ea). simpl. now apply IH in E.
    + intros H. apply repeat_greedy_sound in H.
      destruct H as [tok [m' [rest [-> [-> [Hall [_ [_ Hk]]]]]]]].
      rewrite all_in_app. apply IH in Hk. rewrite Hk, andb_true_r.
      clear - Hall Hit. induction tok as [|a tok IHt]; [reflexivity|].
      simpl in *. apply andb_true_iff in Hall. destruct Hall as [Ha Hall].
      now rewrite (Hit a Ha), IHt.
Qed.

Lemma match_here_max_len (ic : bool) (its : list item) :
  forall n prev s m,
    max_len its = Some n -> match_here ic its prev s = Some m ->
    String.length m <= n.
Proof.
  induction its as [|it its IH]; intros n prev s m; simpl.
  - intros [= <-] [= <-]. simpl. lia.
  - destruct it as [|c|cs lo hi].
    + intros Hn. destruct (at_boundary prev s); [now apply IH | discriminate].
    + destruct (max_len its) as [n'|]; [|discriminate]. intros [= <-].
      destruct s as [|a s]; [discriminate|].
      destruct (lit_eq ic c a); [|discriminate].
      destruct (match_here ic its (Some a) s) as [m'|] eqn:E; [|discriminate].
      intros [= <-]. apply (IH n' _ _ _ eq_refl) in E. simpl. lia.
    + destruct hi as [h|]; [|discriminate].
      destruct (max_len its) as [n'|]; [|discriminate]. intros [= <-] H.
      apply repeat_greedy_sound in H.
      destruct H as [tok [m' [rest [-> [-> [_ [_ [Hh Hk]]]]]]]].
      apply (IH n' _ _ _ eq_refl) in Hk. simpl in Hh.
      rewrite length_app_s. lia.
Qed.

(** A pattern that ends with [\b] ends its match at a word boundary. *)
Lemma match_ends_at_boundary (ic : bool) (its : list item) :
  forall prev s m,
    match_here ic (its ++ [WordBoundary]) prev s = Some m ->
    exists rest, s = m ++ rest /\ at_boundary (last_of prev m) rest = true.
Proof.
  induction its as [|it its IH]; intros prev s m; simpl.
  - destruct (at_boundary prev s) eqn:E; [|discriminate].
    intros [= <-]. now exists s.
  - destruct it as [|c|cs lo hi].
    + destruct (at_boundary prev s); [apply IH | discriminate].
    + destruct s as [|a s]; [discriminate|].
      destruct (lit_eq ic c a); [|discriminate].
      destruct (match_here ic (its ++ [WordBoundary]) (Some a) s)
        as [m'|] eqn:E; [|discriminate].
      intros [= <-]. apply IH in E. destruct E as [rest [-> Hb]].
      now exists rest.
    + intros H. apply repeat_greedy_sound in H.
      destruct H as [tok [m' [rest [-> [-> [_ [_ [_ Hk]]]]]]]].
      apply IH in Hk. destruct Hk as [rest' [-> Hb]]. exists rest'.
      now rewrite app_assoc_s, last_of_app.
Qed.

Lemma all_in_last (P : ascii -> bool) (m : string) (prev : option ascii) :
  m <> "" -> all_in P m = true ->
  exists z, last_of prev m = Some z /\ P z = true.
Proof.
  revert prev. induction m as [|a m IH]; intros prev Hne Hall;
    [now destruct Hne|].
  simpl in *. apply andb_true_iff in Hall. destruct Hall as [Ha Hall].
  destruct m as [|a' m]; [now exists a|].
  apply IH; [discriminate | exact Hall].
Qed.

(** A match of word characters between two [\b] stands between two
    positions without a word character. *)
Lemma match_delimited (ic : bool) (its : list item)
      (prev : option ascii) (s m : string) :
  items_within is_word ic its -> 1 <= min_len its ->
  match_here ic (WordBoundary :: its ++ [WordBoundary]) prev s = Some m ->
  exists rest,
    s = m ++ rest /\ all_in is_word m = true /\
    word_opt prev = false /\ word_opt (head rest) = false.
Proof.
  intros Hw Hmin H. cbn [match_here] in H.
  destruct (at_boundary prev s) eqn:Hb; [|discriminate].
  assert (Hall : all_in is_word m = true).
  { apply (@match_here_all_in is_word ic (its ++ [WordBoundary])) in H;
      [exact H|]. apply Forall_app. split; [exact Hw | now repeat constructor]. }
  assert (Hlen : 1 <= String.length m).
  { apply match_here_length in H.
    assert (E : min_len (its ++ [WordBoundary]) = min_len its).
    { clear. induction its as [|[|c|cs lo hi] its IH]; simpl; auto. }
    lia. }
  apply match_ends_at_boundary in H. destruct H as [rest [-> Hend]].
  exists rest. split; [reflexivity|]. split; [exact Hall|].
  destruct m as [|a m]; [simpl in Hlen; lia|].
  destruct (@all_in_last is_word (String a m) prev) as [z [Hz Hzw]];
    [discriminate | exact Hall |].
  simpl in Hall. apply andb_true_iff in Hall. destruct Hall as [Ha _].
  unfold at_boundary in Hb, Hend. simpl in Hb. rewrite Ha in Hb.
  rewrite Hz in Hend. simpl in Hend. rewrite Hzw in Hend. split.
  - now destruct (word_opt prev).
  - now destruct (word_opt (head rest)).
Qed.

(** ** Tracking numbers *)

Lemma lit_is_word (ic : bool) (c : ascii) :
  forallb (fun a => implb (lit_eq ic c a) (is_word a)) all_chars = true ->
  forall a, lit_eq ic c a = true -> is_word a = true.
Proof.
  intros H a Ha.
  pose proof (for_all_chars
                (fun a => implb (lit_eq ic c a) (is_word a)) H a) as Hi.
  cbv beta in Hi. now rewrite Ha in Hi.
Qed.

Lemma carrier_pattern_form (name : string) (rx : regex) :
  In (name, rx) carrier_patterns ->
  exists its,
    items rx = WordBoundary :: (its ++ [WordBoundary])%list /\
    items_within is_word (ignorecase rx) its /\ 1 <= min_len its.
Proof.
  simpl. intros H.
  repeat (destruct H as [[= <- <-] | H];
          [match goal with
           | |- exists _, items ?r = _ /\ _ =>
               exists (removelast (tl (items r)))
           end;
           split; [reflexivity|]; split; [|simpl; lia];
           repeat constructor;
           try (apply lit_is_word; vm_compute; reflexivity);
           try exact digit_is_word; try exact alnum_is_word
          |]).
  destruct H.
Qed.

Lemma detect_tracking_source (body name m : string) :
  detect_tracking body = (name, m) -> m <> "" ->
  exists rx, In (name, rx) carrier_patterns /\ search rx body = Some m.
Proof.
  unfold detect_tracking. intros E Hne.
  destruct (first_match_cases carrier_patterns body)
    as [H | [n [rx [m' [Hin [Hs Hf]]]]]].
  - rewrite H in E. injection E as <- <-. now destruct Hne.
  - rewrite Hf in E. injection E as <- <-. now exists rx.
Qed.

(** X1: a tracking number that the extractor reports stands in the body,
    is made of word characters, and has no word character next to it in the
    body. *)
Theorem tracking_number_stands_in_body (body name number : string) :
  detect_tracking body = (name, number) -> number <> "" ->
  exists pre post,
    body = pre ++ number ++ post /\ delimited pre post /\
    all_in is_word number = true.
Proof.
  intros E Hne. destruct (@detect_tracking_source _ _ _ E Hne) as [rx [Hin Hs]].
  destruct (@carrier_pattern_form _ _ Hin) as [its [Hits [Hw Hmin]]].
  apply search_from_position in Hs. destruct Hs as [pre [s' [-> Hm]]].
  unfold match_at in Hm. rewrite Hits in Hm.
  apply match_delimited in Hm; [|exact Hw | exact Hmin].
  destruct Hm as [post [-> [Hall [Hp Hq]]]].
  exists pre, post. repeat split; assumption.
Qed.

Lemma tracking_number_stands_in_body_witness :
  exists pre post,
    "Parcel 1Z999AA10123456784, thanks" = pre ++ "1Z999AA10123456784" ++ post
    /\ delimited pre post /\ all_in is_word "1Z999AA10123456784" = true.
Proof.
  apply (@tracking_number_stands_in_body
           "Parcel 1Z999AA10123456784, thanks" "UPS" "1Z999AA10123456784").
  - vm_compute. reflexivity.
  - discriminate.
Defined.

Lemma carrier_regex (name : string) (rx : regex) :
  In (name, rx) carrier_patterns ->
  (name = "UPS" -> rx = RE_UPS) /\ (name = "USPS" -> rx = RE_USPS) /\
  (name = "FedEx" -> rx = RE_FEDEX) /\ (name = "DHL" -> rx = RE_DHL) /\
  (name = "Amazon Logistics" -> rx = RE_TBA).
Proof.
  simpl. intros H.
  repeat (destruct H as [[= <- <-] | H];
          [repeat split; intros; (reflexivity || discriminate)|]).
  destruct H.
Qed.

Lemma search_bounds (rx : regex) (body m : string) (n : nat) :
  search rx body = Some m -> max_len (items rx) = Some n ->
  min_len (items rx) <= String.length m <= n.
Proof.
  intros Hs Hn. split; [now apply search_length in Hs|].
  apply search_from_position in Hs. destruct Hs as [pre [s' [_ Hm]]].
  now apply (@match_here_max_len _ _ n) in Hm.
Qed.

Lemma search_all_in (P : ascii -> bool) (rx : regex) (body m : string) :
  items_within P (ignorecase rx) (items rx) ->
  search rx body = Some m -> all_in P m = true.
Proof.
  intros Hw Hs. apply search_from_position in Hs.
  destruct Hs as [pre [s' [_ Hm]]].
  now apply (@match_here_all_in P _ _ Hw) in Hm.
Qed.

Lemma digit_items (lo : nat) (hi : option nat) :
  items_within is_digit false [WordBoundary; Rep Digit lo hi; WordBoundary].
Proof. repeat constructor. now intros a H. Qed.

(** X2: the number reported with each carrier has the length of that
    carrier's pattern: 18 characters for UPS, 22 or 23 digits of which the
    first is 9 for USPS, 12 to 22 digits for FedEx, 10 digits for DHL, and
    at least 4 characters for Amazon Logistics. *)
Theorem tracking_number_shape (body name number : string) :
  detect_tracking body = (name, number) ->
  (name = "UPS" -> String.length number = 18) /\
  (name = "USPS" ->
   22 <= String.length number <= 23 /\ all_in is_digit number = true /\
   head number = Some "9"%char) /\
  (name = "FedEx" ->
   12 <= String.length number <= 22 /\ all_in is_digit number = true) /\
  (name = "DHL" ->
   String.length number = 10 /\ all_in is_digit number = true) /\
  (name = "Amazon Logistics" -> 4 <= String.length number).
Proof.
  intros E.
  assert (Hsrc : name <> "" ->
                 exists rx, In (name, rx) carrier_patterns /\
                            search rx body = Some number).
  { intros Hn. unfold detect_tracking in E.
    destruct (first_match_cases carrier_patterns body)
      as [H | [n [rx [m' [Hin [Hs Hf]]]]]].
    - rewrite H in E. injection E as <- <-. now destruct Hn.
    - rewrite Hf in E. injection E as <- <-. now exists rx. }
  split; [|split; [|split; [|split]]]; intros ->;
    (destruct Hsrc as [rx [Hin Hs]]; [discriminate|]);
    destruct (@carrier_regex _ _ Hin) as [H1 [H2 [H3 [H4 H5]]]].
  - rewrite (H1 eq_refl) in Hs.
    pose proof (@search_bounds _ _ _ 18 Hs eq_refl). simpl in *. lia.
  - rewrite (H2 eq_refl) in Hs. split; [|split].
    + pose proof (@search_bounds _ _ _ 23 Hs eq_refl). simpl in *. lia.
    + now apply usps_match_run in Hs.
    + apply search_from_position in Hs.
      destruct Hs as [pre [s' [_ Hm]]]. unfold match_at in Hm.
      cbn [ignorecase items RE_USPS match_here] in Hm.
      destruct (at_boundary _ s'); [|discriminate].
      destruct s' as [|a s']; [discriminate|].
      destruct (lit_eq false "9" a) eqn:Ea; [|discriminate].
      apply Ascii.eqb_eq in Ea. subst a.
      destruct (repeat_greedy _ _ _ _ _ s'); [|discriminate].
      now injection Hm as <-.
  - rewrite (H3 eq_refl) in Hs. split.
    + pose proof (@search_bounds _ _ _ 22 Hs eq_refl). simpl in *. lia.
    + now apply fedex_match_run in Hs.
  - rewrite (H4 eq_refl) in Hs. split.
    + pose proof (@search_bounds _ _ _ 10 Hs eq_refl). simpl in *. lia.
    + apply (@search_all_in is_digit) in Hs; [exact Hs | apply digit_items].
  - rewrite (H5 eq_refl) in Hs. apply search_length in Hs. simpl in Hs. lia.
Qed.

Lemma tracking_number_shape_witness :
  (22 <= String.length "9400100000000000000000" <= 23 /\
   all_in is_digit "9400100000000000000000" = true /\
   head "9400100000000000000000" = Some "9"%char) /\
  (String.length "1234567890" = 10 /\ all_in is_digit "1234567890" = true).
Proof.
  split.
  - exact (proj1 (proj2 (@tracking_number_shape
             "Label 9400100000000000000000" "USPS" "9400100000000000000000"
             ltac:(vm_compute; reflexivity))) eq_refl).
  - exact (proj1 (proj2 (proj2 (proj2 (@tracking_number_shape
             "call 1234567890" "DHL" "1234567890"
             ltac:(vm_compute; reflexivity))))) eq_refl).
Defined.

(** ** Status classifier, further *)

Lemma lower_char_idem (c : ascii) : lower_char (lower_char c) = lower_char c.
Proof.
  apply Ascii.eqb_eq.
  exact (for_all_chars
           (fun c => Ascii.eqb (lower_char (lower_char c)) (lower_char c))
           ltac:(vm_compute; reflexivity) c).
Qed.

Lemma lower_idem (s : string) : lower (lower s) = lower s.
Proof.
  induction s as [|c s IH]; simpl; [reflexivity|].
  now rewrite lower_char_idem, IH.
Qed.

(** X3: the classification does not depend on the case of the letters of
    subject and body. *)
Theorem detect_status_ignores_case
        (subject1 body1 subject2 body2 : string) (has_tracking : bool) :
  lower subject1 = lower subject2 -> lower body1 = lower body2 ->
  detect_status subject1 body1 has_tracking
  = detect_status subject2 body2 has_tracking /\
  detect_status (lower subject1) (lower body1) has_tracking
  = detect_status subject1 body1 has_tracking.
Proof.
  intros Hs Hb. rewrite !detect_status_cases. unfold status_text.
  now rewrite !lower_idem, Hs, Hb.
Qed.

Lemma detect_status_ignores_case_witness :
  detect_status "PACKAGE DELIVERED" "Was Delivered Today" false
  = detect_status "package delivered" "was delivered today" false /\
  detect_status (lower "PACKAGE DELIVERED") (lower "Was Delivered Today") false
  = detect_status "PACKAGE DELIVERED" "Was Delivered Today" false.
Proof.
  apply detect_status_ignores_case; reflexivity.
Defined.

(** X4: the result is one of the three states, and a tracking number only
    ever turns Pending into Shipped: with one, the result is Shipped where
    it would be Pending without, and the same otherwise. *)
Theorem tracking_turns_pending_into_shipped (subject body : string) :
  (forall has_tracking,
      In (detect_status subject body has_tracking)
         ["Delivered"; "Shipped"; "Pending"]) /\
  detect_status subject body true
  = (if detect_status subject body false =? "Pending" then "Shipped"
     else detect_status subject body false) /\
  detect_status subject body true <> "Pending".
Proof.
  split; [|split].
  - intros ht. rewrite detect_status_cases.
    destruct (any_in (STATUS_HINTS "delivered") (status_text subject body));
      [simpl; tauto|].
    destruct (ht || any_in (STATUS_HINTS "shipped") (status_text subject body));
      simpl; tauto.
  - rewrite !detect_status_cases.
    destruct (any_in (STATUS_HINTS "delivered") (status_text subject body)); [reflexivity|].
    cbn [orb]. destruct (any_in (STATUS_HINTS "shipped") (status_text subject body)); reflexivity.
  - rewrite detect_status_cases.
    destruct (any_in (STATUS_HINTS "delivered") (status_text subject body)); discriminate.
Qed.

(** ** Collapsing white space *)

Lemma spaces_no_match (prev : option ascii) (a : ascii) (s : string) :
  is_space a = false -> match_at RE_SPACES prev (String a s) = None.
Proof.
  intros H. unfold match_at. cbn [ignorecase items RE_SPACES match_here].
  cbn [repeat_greedy cset_mem]. now rewrite H.
Qed.

Lemma spaces_match_run (prev : option ascii) (tok rest : string) :
  tok <> "" -> all_in is_space tok = true ->
  match head rest with Some c => is_space c = false | None => True end ->
  match_at RE_SPACES prev (tok ++ rest) = Some tok.
Proof.
  intros Hne Hall Hrest. unfold match_at.
  cbn [ignorecase items RE_SPACES match_here].
  rewrite repeat_greedy_run with (m := "").
  - now rewrite app_empty_r.
  - exact Hall.
  - destruct tok; [now destruct Hne | simpl; lia].
  - exact I.
  - now right.
  - reflexivity.
Qed.

Lemma space_run (s : string) :
  exists tok rest,
    s = tok ++ rest /\ all_in is_space tok = true /\
    match head rest with Some c => is_space c = false | None => True end.
Proof.
  induction s as [|a s [tok [rest [-> [Hall Hrest]]]]].
  - now exists "", "".
  - destruct (is_space a) eqn:Ea.
    + exists (String a tok), rest. simpl. now rewrite Ea.
    + exists "", (String a (tok ++ rest)). simpl. auto.
Qed.

Lemma squeeze_after_run (s : string) :
  match head s with Some c => is_space c = false | None => True end ->
  squeeze true s = squeeze false s.
Proof. destruct s as [|a s]; simpl; [reflexivity|]. now intros ->. Qed.

Lemma sub_spaces_squeeze (s : string) :
  (forall prev, sub_from RE_SPACES " " 0 prev s = squeeze false s) /\
  (forall tok rest prev,
      s = tok ++ rest -> all_in is_space tok = true ->
      match head rest with Some c => is_space c = false | None => True end ->
      sub_from RE_SPACES " " (String.length tok) prev s = squeeze true s).
Proof.
  induction s as [|a s [IH0 IHrun]].
  - split; [reflexivity|]. intros tok rest prev E _ _.
    destruct tok; [reflexivity | discriminate E].
  - assert (H0 : forall prev,
               sub_from RE_SPACES " " 0 prev (String a s)
               = squeeze false (String a s)).
    { intros prev. destruct (is_space a) eqn:Ea.
      - destruct (space_run s) as [tok [rest [E [Hall Hrest]]]].
        cbn [sub_from squeeze]. rewrite Ea.
        assert (Hm : match_at RE_SPACES prev (String a s)
                     = Some (String a tok)).
        { rewrite E.
          apply (@spaces_match_run prev (String a tok) rest);
            [discriminate | simpl; now rewrite Ea | exact Hrest]. }
        rewrite Hm. cbn [String.length].
        rewrite (IHrun tok rest (Some a) E Hall Hrest). reflexivity.
      - cbn [sub_from squeeze]. rewrite Ea, spaces_no_match by exact Ea.
        now rewrite IH0. }
    split; [exact H0|]. intros tok rest prev E Hall Hrest.
    destruct tok as [|t tok].
    + simpl in E. subst rest. cbn [String.length].
      rewrite H0. symmetry. now apply squeeze_after_run.
    + simpl in E. injection E as <- E. simpl in Hall.
      apply andb_true_iff in Hall. destruct Hall as [Ht Hall].
      cbn [String.length sub_from squeeze]. rewrite Ht.
      now apply IHrun with (rest := rest).
Qed.

Lemma squeeze_squeezed (s : string) :
  squeezed (squeeze false s) = true /\
  (squeezed (squeeze true s) = true /\
   match head (squeeze true s) with
   | Some d => is_space d = false
   | None => True
   end).
Proof.
  induction s as [|a s [IH0 [IH1 IHh]]]; [simpl; auto|].
  simpl. destruct (is_space a) eqn:Ea.
  - split; [|now split]. simpl. rewrite IH1, andb_true_r.
    destruct (head (squeeze true s)); [now rewrite IHh | reflexivity].
  - assert (H : squeezed (String a (squeeze false s)) = true)
      by (simpl; now rewrite Ea, IH0).
    simpl head. auto.
Qed.

Lemma squeeze_without_space (s : string) (r : bool) :
  without_space (squeeze r s) = without_space s.
Proof.
  revert r. induction s as [|a s IH]; intros r; simpl; [reflexivity|].
  destruct (is_space a) eqn:Ea.
  - destruct r; simpl; now rewrite IH.
  - simpl. now rewrite Ea, IH.
Qed.

Lemma squeeze_fixed (s : string) :
  squeezed s = true -> squeeze false s = s.
Proof.
  induction s as [|a s IH]; simpl; [reflexivity|].
  intros H. apply andb_true_iff in H. destruct H as [Ha Hs].
  destruct (is_space a) eqn:Ea; simpl in Ha.
  - apply andb_true_iff in Ha. destruct Ha as [Heq Hn].
    apply Ascii.eqb_eq in Heq. subst a. f_equal.
    rewrite squeeze_after_run; [now apply IH|].
    destruct (head s); [now apply negb_true_iff in Hn | exact I].
  - f_equal. now apply IH.
Qed.

Lemma collapse_squeezed (s : string) :
  squeezed (re_sub RE_SPACES " " s) = true.
Proof.
  unfold re_sub. rewrite (proj1 (sub_spaces_squeeze s) None).
  now destruct (squeeze_squeezed s).
Qed.

(** X5: the white-space substitution of [html_to_text] replaces every run
    of white space by one space: what it returns has no white space other
    than single spaces, keeps the other characters in their order, and is
    left unchanged by a second substitution. *)
Theorem collapse_leaves_single_spaces (s : string) :
  squeezed (re_sub RE_SPACES " " s) = true /\
  without_space (re_sub RE_SPACES " " s) = without_space s /\
  re_sub RE_SPACES " " (re_sub RE_SPACES " " s) = re_sub RE_SPACES " " s.
Proof.
  unfold re_sub. rewrite !(proj1 (sub_spaces_squeeze _) None).
  destruct (squeeze_squeezed s) as [H _].
  split; [exact H|]. split; [apply squeeze_without_space|].
  now apply squeeze_fixed.
Qed.

(** ** Sheet rows *)

Lemma lstrip_head (s : string) :
  match head (lstrip s) with Some c => is_space c = false | None => True end.
Proof.
  induction s as [|c s IH]; simpl; [exact I|].
  destruct (is_space c) eqn:E; [exact IH | simpl; exact E].
Qed.

Lemma lstrip_fixed (s : string) :
  match head s with Some c => is_space c = false | None => True end ->
  lstrip s = s.
Proof. destruct s as [|c s]; simpl; [reflexivity|]. now intros ->. Qed.

Lemma rstrip_head (s : string) :
  match head s with Some c => is_space c = false | None => True end ->
  match head (rstrip s) with Some c => is_space c = false | None => True end.
Proof.
  destruct s as [|c s]; simpl; [trivial|]. intros E.
  destruct (rstrip s); [rewrite E|]; simpl; exact E.
Qed.

Lemma rstrip_idem (s : string) : rstrip (rstrip s) = rstrip s.
Proof.
  induction s as [|c s IH]; simpl; [reflexivity|].
  destruct (rstrip s) as [|c' r] eqn:E.
  - destruct (is_space c) eqn:Ec; simpl; [reflexivity | now rewrite Ec].
  - change (rstrip (String c (String c' r)))
      with (match rstrip (String c' r) with
            | "" => if is_space c then "" else String c ""
            | String _ _ as r' => String c r'
            end).
    now rewrite IH.
Qed.

Lemma strip_idem (s : string) : strip (strip s) = strip s.
Proof.
  unfold strip. rewrite (lstrip_fixed (rstrip (lstrip s))).
  - apply rstrip_idem.
  - apply rstrip_head, lstrip_head.
Qed.

Lemma cell_stripped (r : list string) (i : nat) : strip (cell r i) = cell r i.
Proof.
  unfold cell. destruct (nth_error r i); [apply strip_idem | reflexivity].
Qed.

Lemma row_get_set_same (d : sheet_row) (k v : string) :
  row_get (dict_set d k v) k = Some v.
Proof.
  induction d as [|[k' v'] d IH]; simpl.
  - now rewrite String.eqb_refl.
  - destruct (k' =? k) eqn:E; simpl; rewrite E; [reflexivity | exact IH].
Qed.

Lemma row_get_set_other (d : sheet_row) (k h v : string) :
  h <> k -> row_get (dict_set d h v) k = row_get d k.
Proof.
  intros Hne. induction d as [|[k' v'] d IH]; simpl.
  - apply String.eqb_neq in Hne. now rewrite Hne.
  - destruct (k' =? h) eqn:E; simpl.
    + apply String.eqb_eq in E. subst k'.
      apply String.eqb_neq in Hne. now rewrite Hne.
    + now rewrite IH.
Qed.

Lemma make_row_other (header cells : list string) (d : sheet_row)
      (k : string) :
  ~ In k header -> row_get (make_row header cells d) k = row_get d k.
Proof.
  revert cells d. induction header as [|h header IH]; intros cells d Hn;
    simpl; [reflexivity|].
  rewrite IH by (intros H; apply Hn; now right).
  apply row_get_set_other. intros ->. apply Hn. now left.
Qed.

Lemma make_row_column (before after cells : list string) (k : string) :
  ~ In k after ->
  forall d,
    row_get (make_row (before ++ k :: after) cells d) k
    = Some (cell cells (List.length before)).
Proof.
  intros Hn. revert cells.
  induction before as [|h before IH]; intros cells d; simpl.
  - rewrite make_row_other by exact Hn. rewrite row_get_set_same.
    now destruct cells.
  - rewrite IH. unfold cell.
    destruct cells; simpl; [now destruct (List.length before) | reflexivity].
Qed.

Lemma make_row_keys (header cells : list string) (d : sheet_row)
      (k v : string) :
  row_get (make_row header cells d) k = Some v ->
  row_get d k = Some v \/ (In k header /\ exists i, v = cell cells i).
Proof.
  revert cells d. induction header as [|h header IH]; intros cells d;
    simpl; [now left|].
  intros H. apply IH in H. destruct H as [H | [Hin [i ->]]].
  - destruct (string_dec h k) as [-> | Hne].
    + rewrite row_get_set_same in H. injection H as <-. right.
      split; [now left|]. exists 0. now destruct cells.
    + rewrite row_get_set_other in H by exact Hne. now left.
  - right. split; [now right|]. exists (S i). unfold cell.
    destruct cells; simpl; [now destruct i | reflexivity].
Qed.

(** X6: in a row of the sheet, the value of a column is the trimmed cell
    under the last header of that name, lower-cased and trimmed, and the
    empty string when the line is too short; a name that is no header has
    no value; every value is trimmed; and a sheet without lines or with its
    header line only gives no rows. *)
Theorem sheet_row_columns :
  fetch_sheet_rows [] = [] /\
  (forall first, fetch_sheet_rows [first] = []) /\
  (forall first data,
      List.length (fetch_sheet_rows (first :: data)) = List.length data) /\
  (forall first data row,
      In row (fetch_sheet_rows (first :: data)) ->
      exists r,
        In r data /\
        (forall before k after,
            map (fun h => lower (strip h)) first
            = (before ++ k :: after)%list ->
            ~ In k after ->
            row_get row k = Some (cell r (List.length before))) /\
        (forall k,
            ~ In k (map (fun h => lower (strip h)) first) ->
            row_get row k = None) /\
        (forall k v, row_get row k = Some v -> strip v = v)).
Proof.
  split; [reflexivity|]. split; [reflexivity|].
  split; [intros; simpl; apply length_map|].
  intros first data row Hin. simpl in Hin. apply in_map_iff in Hin.
  destruct Hin as [r [<- Hr]]. exists r. split; [exact Hr|].
  split; [|split].
  - intros before k after -> Hn. now apply make_row_column.
  - intros k Hn. now rewrite make_row_other.
  - intros k v H. apply make_row_keys in H.
    destruct H as [H | [_ [i ->]]]; [discriminate H | apply cell_stripped].
Qed.

Lemma sheet_row_columns_witness :
  exists r,
    In r [["A100"; " shop "]; ["B200"]] /\
    (forall before k after,
        map (fun h => lower (strip h)) [" Order Number "; "Site"]
        = (before ++ k :: after)%list ->
        ~ In k after ->
        row_get [("order number", "B200"); ("site", "")] k
        = Some (cell r (List.length before))) /\
    (forall k,
        ~ In k (map (fun h => lower (strip h)) [" Order Number "; "Site"]) ->
        row_get [("order number", "B200"); ("site", "")] k = None) /\
    (forall k v,
        row_get [("order number", "B200"); ("site", "")] k = Some v ->
        strip v = v).
Proof.
  apply (proj2 (proj2 (proj2 sheet_row_columns))
           [" Order Number "; "Site"] [["A100"; " shop "]; ["B200"]]).
  vm_compute. tauto.
Defined.

(** X7: the driver reads the order number and the site of a sheet row as
    they stand in the row, under the header "order number" or, when that
    column is absent or empty, "order_number", and the header "site": the
    trimming of [main] changes nothing on the rows of [fetch_sheet_rows]. *)
Theorem sheet_order_and_site (first : list string) (data : list (list string))
        (row : sheet_row) :
  In row (fetch_sheet_rows (first :: data)) ->
  order_of row
  = or_else (row_get row "order number")
            (or_else (row_get row "order_number") "") /\
  site_of row = or_else (row_get row "site") "".
Proof.
  intros Hin. simpl in Hin. apply in_map_iff in Hin.
  destruct Hin as [r [<- _]].
  assert (Hstrip : forall k v,
             row_get (make_row (map (fun h => lower (strip h)) first) r []) k
             = Some v -> strip v = v).
  { intros k v H. apply make_row_keys in H.
    destruct H as [H | [_ [i ->]]]; [discriminate H | apply cell_stripped]. }
  assert (Hor : forall x d, strip d = d ->
                   (forall v, x = Some v -> strip v = v) ->
                   strip (or_else x d) = or_else x d).
  { intros [[|c v]|] d Hd Hx; simpl; trivial. now apply Hx. }
  unfold order_of, site_of. split.
  - apply Hor; [|intros v; apply Hstrip].
    apply Hor; [reflexivity | intros v; apply Hstrip].
  - apply Hor; [reflexivity | intros v; apply Hstrip].
Qed.

Lemma sheet_order_and_site_witness :
  order_of [("order number", ""); ("order_number", "B200"); ("site", "shop")]
  = "B200" /\
  site_of [("order number", ""); ("order_number", "B200"); ("site", "shop")]
  = "shop".
Proof.
  apply (@sheet_order_and_site
           ["Order Number"; "ORDER_NUMBER"; " Site"]
           [[" "; " B200"; "shop "]]).
  vm_compute. tauto.
Defined.

(** ** Driver, further *)

Section RunProperties.

Variable L : stdlib.
Variable imap : imap_session.

Lemma main_loop_app (rows1 rows2 : list sheet_row) :
  snd (main_loop L imap rows1) = Ok tt ->
  main_loop L imap (rows1 ++ rows2)
  = ((fst (main_loop L imap rows1) ++ fst (main_loop L imap rows2))%list,
     snd (main_loop L imap rows2)).
Proof.
  induction rows1 as [|r rows1 IH]; simpl.
  - intros _. now destruct (main_loop L imap rows2).
  - destruct (process_row L imap r) as [[o|]|e].
    + destruct (main_loop L imap rows1) as [w1 e1]. simpl in *.
      intros H. rewrite (IH H). reflexivity.
    + exact IH.
    + discriminate.
Qed.

(** X8: the rows are handled in order and an exception ends the run: when
    the rows before [r] are handled without one and [r] raises [e], the
    file holds the rows written for those before [r], in their order, and
    nothing for [r] and the rows after it. *)
Theorem run_stops_at_first_exception
        (before after : list sheet_row) (r : sheet_row) (e : exn) :
  snd (main_loop L imap before) = Ok tt ->
  process_row L imap r = Raise e ->
  main_loop L imap (before ++ r :: after)
  = (fst (main_loop L imap before), Raise e) /\
  map (fun o => (order_number o, site o)) (fst (main_loop L imap before))
  = filter (fun p => nonempty (fst p))
           (map (fun r => (order_of r, site_of r)) before).
Proof.
  intros Hb Hr. split.
  - rewrite main_loop_app by exact Hb.
    rewrite (@main_loop_raise L imap r after e Hr). simpl.
    now rewrite app_nil_r.
  - now apply main_loop_one_row_each.
Qed.

(** X9: a run over two sheets one after the other writes the rows of the
    first, then those of the second, when the first is handled without an
    exception; and a run without an exception writes one row for each
    order with a number, in order. *)
Theorem run_over_two_sheets (rows1 rows2 : list sheet_row) :
  snd (main_loop L imap rows1) = Ok tt ->
  main_loop L imap (rows1 ++ rows2)
  = ((fst (main_loop L imap rows1) ++ fst (main_loop L imap rows2))%list,
     snd (main_loop L imap rows2)) /\
  List.length (fst (main_loop L imap rows1))
  = List.length (filter (fun r => nonempty (order_of r)) rows1).
Proof.
  intros H. split; [now apply main_loop_app|].
  pose proof (main_loop_one_row_each L imap rows1 H) as E.
  apply (f_equal (@List.length _)) in E. rewrite length_map in E. rewrite E.
  clear. induction rows1 as [|r rows1 IH]; simpl; [reflexivity|].
  destruct (nonempty (order_of r)); simpl; now rewrite IH.
Qed.

Lemma process_row_status (r : sheet_row) (out : OutputRecord) :
  process_row L imap r = Ok (Some out) ->
  In (status out) ["Delivered"; "Shipped"; "Pending"] /\
  (tracking out <> "" -> status out <> "Pending").
Proof.
  unfold process_row.
  destruct (negb (nonempty (order_of r))); [discriminate|].
  destruct (search_latest_for_order L imap (order_of r) (site_of r))
    as [[msg|]|e]; simpl;
    [| intros [= <-]; simpl; tauto | discriminate].
  destruct (negb (msg_truthy msg)); [intros [= <-]; simpl; tauto|].
  destruct (dec L _) as [subj|]; simpl; [|discriminate].
  destruct (dec L _) as [date|]; simpl; [|discriminate].
  destruct (get_body L msg) as [body|]; simpl; [|discriminate].
  destruct (detect_tracking body) as [c t]. intros [= <-]. simpl. split.
  - rewrite detect_status_cases.
    destruct (any_in (STATUS_HINTS "delivered") (status_text subj body));
      [simpl; tauto|].
    destruct (nonempty t
              || any_in (STATUS_HINTS "shipped") (status_text subj body));
      simpl; tauto.
  - intros Ht. rewrite detect_status_cases.
    destruct (any_in (STATUS_HINTS "delivered") (status_text subj body));
      [discriminate|].
    destruct t; [now destruct Ht | discriminate].
Qed.

(** X10: every row that the driver writes has one of the three states, a
    row with a tracking number is never Pending, and a row that is not
    Pending is the row of an order of the sheet for which a message was
    found: its tracking number and carrier are those extracted from the
    body of that message and its status is the classification of that
    message. *)
Theorem written_rows_status (rows : list sheet_row) (out : OutputRecord) :
  In out (fst (main_loop L imap rows)) ->
  In (status out) ["Delivered"; "Shipped"; "Pending"] /\
  (tracking out <> "" -> status out <> "Pending") /\
  (status out <> "Pending" ->
   exists r msg body,
     In r rows /\ process_row L imap r = Ok (Some out) /\
     order_number out = order_of r /\ site out = site_of r /\
     search_latest_for_order L imap (order_of r) (site_of r) = Ok (Some msg) /\
     msg_truthy msg = true /\
     get_body L msg = Ok body /\
     detect_tracking body = (carrier out, tracking out) /\
     status out
     = detect_status (subject out) body (nonempty (tracking out))).
Proof.
  intros H. apply main_loop_rows in H. destruct H as [r [Hin Hr]].
  pose proof Hr as Hs. apply process_row_status in Hs.
  destruct Hs as [H3 Ht]. split; [exact H3|]. split; [exact Ht|].
  intros Hnp. exists r.
  pose proof Hr as Hrow. unfold process_row in Hr.
  destruct (negb (nonempty (order_of r))); [discriminate|].
  destruct (search_latest_for_order L imap (order_of r) (site_of r))
    as [[msg|]|e] eqn:Es; simpl in Hr;
    [| injection Hr as <-; now destruct Hnp | discriminate].
  destruct (msg_truthy msg) eqn:Et; simpl in Hr;
    [| injection Hr as <-; now destruct Hnp].
  destruct (dec L _) as [subj|]; simpl in Hr; [|discriminate].
  destruct (dec L _) as [date|]; simpl in Hr; [|discriminate].
  destruct (get_body L msg) as [body|] eqn:Eb; simpl in Hr; [|discriminate].
  destruct (detect_tracking body) as [c t] eqn:Ed.
  injection Hr as <-. exists msg, body.
  cbn [carrier tracking status subject order_number site].
  repeat split; try assumption; reflexivity.
Qed.

End RunProperties.

Lemma run_stops_at_first_exception_witness :
  main_loop example_lib example_imap
            ([[("order number", "B200"); ("site", "shop")]]
               ++ [("order number", "A100")]
               :: [[("order number", "Z999")]])
  = (fst (main_loop example_lib example_imap
                    [[("order number", "B200"); ("site", "shop")]]),
     Raise LookupError) /\
  map (fun o => (order_number o, site o))
      (fst (main_loop example_lib example_imap
                      [[("order number", "B200"); ("site", "shop")]]))
  = filter (fun p => nonempty (fst p))
           (map (fun r => (order_of r, site_of r))
                [[("order number", "B200"); ("site", "shop")]]).
Proof.
  apply run_stops_at_first_exception; reflexivity.
Defined.

Lemma run_over_two_sheets_witness :
  main_loop example_lib example_imap
            ([[("order number", "B200"); ("site", "shop")]]
               ++ [[("order number", "Z999")]])
  = ((fst (main_loop example_lib example_imap
                     [[("order number", "B200"); ("site", "shop")]])
        ++ fst (main_loop example_lib example_imap
                          [[("order number", "Z999")]]))%list,
     snd (main_loop example_lib example_imap [[("order number", "Z999")]])) /\
  List.length (fst (main_loop example_lib example_imap
                              [[("order number", "B200"); ("site", "shop")]]))
  = List.length (filter (fun r => nonempty (order_of r))
                        [[("order number", "B200"); ("site", "shop")]]).
Proof.
  apply run_over_two_sheets. reflexivity.
Defined.

Lemma written_rows_status_witness :
  exists r msg body,
    In r (tl example_rows) /\
    process_row example_lib example_imap r
    = Ok (Some (Row "B200" "shop" "Shipped" "1Z999AA10123456784" "UPS"
                    "Mon, 01 Jan 2024 10:00:00 +0000" "Your order")) /\
    "B200" = order_of r /\ "shop" = site_of r /\
    search_latest_for_order example_lib example_imap (order_of r) (site_of r)
    = Ok (Some msg) /\
    msg_truthy msg = true /\
    get_body example_lib msg = Ok body /\
    detect_tracking body = ("UPS", "1Z999AA10123456784") /\
    "Shipped" = detect_status "Your order" body true.
Proof.
  apply (proj2 (proj2 (@written_rows_status
                         example_lib example_imap (tl example_rows)
                         (Row "B200" "shop" "Shipped" "1Z999AA10123456784"
                              "UPS" "Mon, 01 Jan 2024 10:00:00 +0000"
                              "Your order")
                         ltac:(vm_compute; tauto)))).
  discriminate.
Defined.

(** ** Mailbox search, further *)

Lemma split_from_spaces (ws : bytes) :
  Forall (fun x => is_bspace x = true) ws -> split_from [] ws = [].
Proof.
  induction 1 as [|x ws Hx _ IH]; simpl; [reflexivity|]. now rewrite Hx.
Qed.

Lemma split_from_some (bs : bytes) :
  forall cur, cur <> [] -> split_from cur bs <> [].
Proof.
  induction bs as [|x bs IH]; intros cur Hne; simpl.
  - destruct cur; [now destruct Hne | discriminate].
  - destruct (is_bspace x).
    + destruct cur; [now destruct Hne | discriminate].
    + apply IH. discriminate.
Qed.

Lemma split_nonspace (bs : bytes) :
  Exists (fun x => is_bspace x = false) bs -> split_from [] bs <> [].
Proof.
  induction 1 as [x bs Hx | x bs _ IH]; simpl.
  - rewrite Hx. apply split_from_some. discriminate.
  - destruct (is_bspace x); [exact IH | apply split_from_some; discriminate].
Qed.

(** X11: when the search response is OK and its id list is not empty and
    holds white space only, [search_latest_for_order] raises [IndexError],
    and so does the loop of [main] at a row with that order number, which
    writes nothing for it or for the rows after it. *)
Theorem search_raises_on_blank_id_list
        (L : stdlib) (imap : imap_session) (r : sheet_row)
        (ids : bytes) (rest : list (option bytes)) :
  imap_search imap (search_criterion (order_of r) (site_of r))
  = ("OK", Some ids :: rest) ->
  ids <> [] -> Forall (fun x => is_bspace x = true) ids ->
  search_latest_for_order L imap (order_of r) (site_of r) = Raise IndexError /\
  (nonempty (order_of r) = true ->
   forall rows, main_loop L imap (r :: rows) = ([], Raise IndexError)).
Proof.
  intros E Hne Hws.
  assert (Hs : search_latest_for_order L imap (order_of r) (site_of r)
               = Raise IndexError).
  { unfold search_latest_for_order. rewrite E. simpl negb. cbv iota.
    destruct ids as [|x ids]; [now destruct Hne|].
    unfold bytes_split. now rewrite split_from_spaces. }
  split; [exact Hs|]. intros Ho rows. apply main_loop_raise.
  unfold process_row. now rewrite Ho, Hs.
Qed.

Lemma search_raises_on_blank_id_list_witness :
  search_latest_for_order
    example_lib
    (Imap (fun _ => ("OK", [Some (b " ")])) (imap_fetch example_imap))
    "A100" ""
  = Raise IndexError /\
  (nonempty "A100" = true ->
   forall rows,
     main_loop example_lib
               (Imap (fun _ => ("OK", [Some (b " ")]))
                     (imap_fetch example_imap))
               ([("order number", "A100")] :: rows)
     = ([], Raise IndexError)).
Proof.
  apply (@search_raises_on_blank_id_list
           example_lib
           (Imap (fun _ => ("OK", [Some (b " ")])) (imap_fetch example_imap))
           [("order number", "A100")] (b " ") [] eq_refl).
  - discriminate.
  - repeat constructor.
Defined.

Lemma app_inv_head_s (pre x y : string) : pre ++ x = pre ++ y -> x = y.
Proof.
  induction pre as [|c pre IH]; simpl; [trivial|].
  intros E. injection E as E. now apply IH.
Qed.

Lemma split_at_first (P : ascii -> bool) (c : ascii) :
  P c = false ->
  forall x x' r r',
    all_in P x = true -> all_in P x' = true ->
    x ++ String c r = x' ++ String c r' -> x = x' /\ r = r'.
Proof.
  intros Hc. induction x as [|a x IH]; intros x' r r' Hx Hx' E.
  - destruct x' as [|a' x']; simpl in E.
    + injection E as ->. auto.
    + injection E as <- _. simpl in Hx'. rewrite Hc in Hx'. discriminate.
  - simpl in Hx. apply andb_true_iff in Hx. destruct Hx as [Ha Hx].
    destruct x' as [|a' x']; simpl in E.
    + injection E as -> _. congruence.
    + injection E as <- E. simpl in Hx'. apply andb_true_iff in Hx'.
      destruct Hx' as [_ Hx']. destruct (IH x' r r' Hx Hx' E) as [-> ->].
      auto.
Qed.

(** X12: for order numbers and site hints without a double quote, the
    search criterion tells the order number and the site hint: two pairs
    with the same criterion are equal.  A double quote is put into the
    criterion as it is, so the order number [a" TEXT "b] without a site
    gives the criterion of the order number [a] with the site [b]. *)
Theorem search_criterion_injective :
  (forall order1 site1 order2 site2,
      all_in not_dquote order1 = true -> all_in not_dquote site1 = true ->
      all_in not_dquote order2 = true -> all_in not_dquote site2 = true ->
      search_criterion order1 site1 = search_criterion order2 site2 ->
      order1 = order2 /\ site1 = site2) /\
  search_criterion ("a" ++ dquote ++ " TEXT " ++ dquote ++ "b") ""
  = search_criterion "a" "b".
Proof.
  split; [|reflexivity].
  intros o1 s1 o2 s2 Ho1 Hs1 Ho2 Hs2. unfold search_criterion, dquote.
  assert (Hq : not_dquote (ascii_of_nat 34) = false) by reflexivity.
  destruct s1 as [|c1 s1], s2 as [|c2 s2]; simpl nonempty; cbv iota;
    intros E; simpl in E; injection E as E.
  - apply (@split_at_first not_dquote _ Hq _ _ _ _ Ho1 Ho2) in E. now destruct E as [-> _].
  - apply (@split_at_first not_dquote _ Hq _ _ _ _ Ho1 Ho2) in E.
    destruct E as [_ E]. discriminate E.
  - apply (@split_at_first not_dquote _ Hq _ _ _ _ Ho1 Ho2) in E.
    destruct E as [_ E]. discriminate E.
  - apply (@split_at_first not_dquote _ Hq _ _ _ _ Ho1 Ho2) in E.
    destruct E as [-> E]. split; [reflexivity|].
    assert (E' : String c1 s1 ++ String (ascii_of_nat 34) ")"
                 = String c2 s2 ++ String (ascii_of_nat 34) ")").
    { apply (@app_inv_head_s (" TEXT " ++ dquote)). exact E. }
    apply (@split_at_first not_dquote _ Hq _ _ _ _ Hs1 Hs2) in E'.
    now destruct E'.
Qed.

Lemma search_criterion_injective_witness :
  "A100" = "A100" /\ "shop" = "shop".
Proof.
  apply (proj1 search_criterion_injective "A100" "shop" "A100" "shop");
    reflexivity.
Defined.

(** ** Header decoding, further *)

(** X13: [dec] gives the empty string for an empty header, the texts of
    the segments in their order, joined, when every segment decodes, the
    header itself when [decode_header] finds no encoded word in it, and it
    raises what [decode_header] raises. *)
Theorem dec_joins_decoded_segments (L : stdlib) (s : string) :
  s <> "" ->
  (forall segs texts,
      decode_header L s = Ok segs ->
      Forall2 (fun seg t => dec_segment L seg = Ok t) segs texts ->
      dec L s = Ok (fold_right String.append "" texts)) /\
  (decode_header L s = Ok [(SegStr s, None)] -> dec L s = Ok s) /\
  (forall e, decode_header L s = Raise e -> dec L s = Raise e).
Proof.
  intros Hne. unfold dec.
  destruct s as [|c s]; [now destruct Hne|]. cbn [nonempty].
  split; [|split].
  - intros segs texts -> H. simpl. now apply dec_segments_ok.
  - intros ->. simpl. now rewrite app_empty_r.
  - now intros e ->.
Qed.

Lemma dec_joins_decoded_segments_witness :
  dec example_lib "Your order" = Ok "Your order".
Proof.
  apply (proj1 (proj2 (@dec_joins_decoded_segments example_lib "Your order"
                         ltac:(discriminate)))).
  reflexivity.
Defined.

(** ** Body extraction, further *)

Lemma part_loop_source (L : stdlib) (ctype : string)
      (post : string -> string) (ps : list message) (k : result string)
      (t : string) :
  part_loop L ctype post ps k = Ok t ->
  k = Ok t \/
  exists p text,
    In p ps /\ get_content_type p = ctype /\ decode_part L p = Ok text /\
    t = post text.
Proof.
  induction ps as [|p ps IH]; simpl; [now left|].
  destruct (get_content_type p =? ctype) eqn:E.
  - apply String.eqb_eq in E.
    destruct (decode_part L p) as [text|e] eqn:Ed; simpl.
    + intros [= <-]. right. exists p, text. auto.
    + intros H. destruct (IH H) as [Hk | [q [text [Hin H']]]]; [now left|].
      right. exists q, text. auto.
  - intros H. destruct (IH H) as [Hk | [q [text [Hin H']]]]; [now left|].
    right. exists q, text. auto.
Qed.

(** X14: the body that [get_body] returns is empty, or the decoded text
    of a part of the message declared text/plain, or the text made from a
    part declared text/html; for a message that is not multipart it is the
    decoded payload whatever its declared type. *)
Theorem get_body_source (L : stdlib) (msg : message) (body : string) :
  get_body L msg = Ok body ->
  body = "" \/
  (exists p, In p (walk msg) /\
             (get_content_type p = "text/plain" /\
              decode_part L p = Ok body \/
              get_content_type p = "text/html" /\
              exists h, decode_part L p = Ok h /\
                        body = html_to_text L h)) \/
  (is_multipart msg = false /\ decode_part L msg = Ok body).
Proof.
  unfold get_body. destruct (is_multipart msg).
  - intros H. apply part_loop_source in H.
    destruct H as [H | [p [text [Hin [Hc [Hd ->]]]]]].
    + apply part_loop_source in H.
      destruct H as [[= <-] | [p [text [Hin [Hc [Hd ->]]]]]]; [now left|].
      right. left. exists p. split; [exact Hin|]. right.
      split; [exact Hc|]. now exists text.
    + right. left. exists p. auto.
  - destruct (decode_part L msg) as [t|e]; simpl; intros [= <-]; auto.
Qed.

Lemma get_body_source_witness :
  " Your order has shipped " = "" \/
  (exists p, In p (walk msg_html) /\
             (get_content_type p = "text/plain" /\
              decode_part example_lib p = Ok " Your order has shipped " \/
              get_content_type p = "text/html" /\
              exists h, decode_part example_lib p = Ok h /\
                        " Your order has shipped "
                        = html_to_text example_lib h)) \/
  (is_multipart msg_html = false /\
   decode_part example_lib msg_html = Ok " Your order has shipped ").
Proof.
  apply (@get_body_source example_lib msg_html). reflexivity.
Defined.

(** ** Stripping tags *)

Lemma tag_match_prev (p q : option ascii) (s : string) :
  match_at RE_TAG p s = match_at RE_TAG q s.
Proof. destruct s as [|a s]; reflexivity. Qed.

Lemma tag_needs_lt (prev : option ascii) (a : ascii) (s : string) :
  a <> "<"%char -> match_at RE_TAG prev (String a s) = None.
Proof.
  intros H. unfold match_at. cbn [ignorecase items RE_TAG match_here].
  assert (lit_eq false "<" a = false) as ->; [|reflexivity].
  apply Ascii.eqb_neq. congruence.
Qed.

Lemma tag_match_exists (prev : option ascii) (tok r : string) :
  tok <> "" -> all_in not_gt tok = true ->
  match_at RE_TAG prev (String "<" (tok ++ String ">" r))
  = Some (String "<" (tok ++ ">")).
Proof.
  intros Hne Hall. unfold match_at.
  cbn [ignorecase items RE_TAG match_here].
  change (lit_eq false "<" "<") with true. cbv iota.
  fold not_gt.
  rewrite repeat_greedy_run with (m := ">").
  - reflexivity.
  - exact Hall.
  - destruct tok; [now destruct Hne | simpl; lia].
  - exact I.
  - right. reflexivity.
  - reflexivity.
Qed.

Lemma tag_match_nonempty (prev : option ascii) (s m : string) :
  match_at RE_TAG prev s = Some m ->
  exists c tok r,
    s = String "<" (String c tok ++ String ">" r) /\
    all_in not_gt (String c tok) = true /\
    m = String "<" (String c tok ++ ">").
Proof.
  intros H. pose proof H as Hl. apply match_here_length in Hl. simpl in Hl.
  apply tag_match_shape in H. destruct H as [tok [r [-> [-> Hall]]]].
  destruct tok as [|c tok].
  - simpl in Hl. lia.
  - now exists c, tok, r.
Qed.

Lemma gt_run (s : string) :
  exists tok rest,
    s = tok ++ rest /\ all_in not_gt tok = true /\
    (rest = "" \/ exists r, rest = String ">" r).
Proof.
  induction s as [|a s [tok [rest [-> [Hall Hrest]]]]].
  - exists "", "". auto.
  - destruct (not_gt a) eqn:Ea.
    + exists (String a tok), rest. simpl. now rewrite Ea.
    + exists "", (String a (tok ++ rest)). simpl. repeat split. right.
      exists (tok ++ rest). f_equal. unfold not_gt in Ea. simpl in Ea.
      destruct (Ascii.eqb_spec a ">"); [assumption | discriminate].
Qed.

Lemma sub_from_skips (rx : regex) (repl : string) :
  forall k s prev,
    k <= String.length s ->
    exists prev' s2,
      sub_from rx repl k prev s = sub_from rx repl 0 prev' s2 /\
      String.length s2 + k = String.length s.
Proof.
  induction k as [|k IH]; intros s prev Hk.
  - exists prev, s. split; [reflexivity | lia].
  - destruct s as [|a s]; [simpl in Hk; lia|].
    destruct (IH s (Some a)) as [prev' [s2 [E Hl]]]; [simpl in Hk; lia|].
    exists prev', s2. split; [exact E | simpl; lia].
Qed.

Lemma strip_tags_no_tag_left (n : nat) :
  forall s prev q,
    String.length s <= n ->
    search_from RE_TAG q (sub_from RE_TAG " " 0 prev s) = None.
Proof.
  induction n as [|n IH]; intros s prev q Hn.
  - destruct s; [reflexivity | simpl in Hn; lia].
  - destruct s as [|a s]; [reflexivity|]. simpl in Hn.
    cbn [sub_from].
    destruct (match_at RE_TAG prev (String a s)) as [m|] eqn:Em.
    + pose proof Em as Hp. apply match_here_prefix in Hp.
      destruct Hp as [rest Hp].
      apply tag_match_nonempty in Em.
      destruct Em as [c [tok [r [_ [_ ->]]]]].
      cbn [String.length append].
      assert (Hk : S (String.length (tok ++ ">")) <= String.length s).
      { simpl in Hp. injection Hp as _ Hs. rewrite Hs. simpl.
        rewrite !length_app_s. lia. }
      destruct (@sub_from_skips RE_TAG " " _ s (Some a) Hk)
        as [prev' [s2 [-> Hl]]].
      rewrite search_from_eq.
      rewrite tag_needs_lt by discriminate.
      apply IH. lia.
    + rewrite search_from_eq.
      assert (Hnone : match_at RE_TAG q
                        (String a (sub_from RE_TAG " " 0 (Some a) s)) = None).
      { destruct (ascii_dec a "<") as [-> | Hne]; [|now apply tag_needs_lt].
        destruct (match_at RE_TAG q
                    (String "<" (sub_from RE_TAG " " 0 (Some "<"%char) s)))
          as [m|] eqn:Eo; [|reflexivity].
        exfalso. apply tag_match_nonempty in Eo.
        destruct Eo as [c [tok [r [Eo [Hall _]]]]]. injection Eo as Eo.
        destruct (gt_run s) as [t [rest [-> [Ht [-> | [r0 ->]]]]]].
        - assert (Hfree : all_in not_gt
                            (sub_from RE_TAG " " 0 (Some "<"%char) (t ++ ""))
                          = true).
          { apply sub_from_all_in; [reflexivity|].
            now rewrite app_empty_r. }
          rewrite Eo in Hfree.
          change (all_in not_gt (String c tok ++ String ">" r) = true)
            in Hfree.
          rewrite all_in_app in Hfree.
          apply andb_true_iff in Hfree. destruct Hfree as [_ Hfree].
          simpl in Hfree. discriminate Hfree.
        - destruct t as [|c0 t].
          + cbn [append sub_from] in Eo.
            rewrite tag_needs_lt in Eo by discriminate.
            injection Eo as <- _. simpl in Hall. discriminate Hall.
          + rewrite tag_match_exists in Em; [discriminate Em | | exact Ht].
            discriminate. }
      rewrite Hnone. apply IH. lia.
Qed.

Lemma no_match_sub_id (s : string) :
  forall prev q,
    search_from RE_TAG q s = None -> sub_from RE_TAG " " 0 prev s = s.
Proof.
  induction s as [|a s IH]; intros prev q H; rewrite search_from_eq in H.
  - cbn [sub_from]. rewrite (tag_match_prev prev q).
    now destruct (match_at RE_TAG q "").
  - cbn [sub_from]. rewrite (tag_match_prev prev q).
    destruct (match_at RE_TAG q (String a s)); [discriminate|].
    f_equal. now apply IH with (q := Some a).
Qed.

Lemma no_lt_no_tag (s : string) :
  contains "<" s = false -> forall q, search_from RE_TAG q s = None.
Proof.
  induction s as [|a s IH]; intros H q; rewrite search_from_eq;
    [reflexivity|].
  rewrite contains_cons in H. apply orb_false_iff in H.
  destruct H as [Hp Hc]. rewrite tag_needs_lt; [now apply IH|].
  intros ->. simpl in Hp. destruct s; discriminate Hp.
Qed.

Lemma strip_tags_without_lt (h : string) :
  contains "<" h = false -> re_sub RE_TAG " " h = h.
Proof.
  intros Hlt. unfold re_sub.
  apply no_match_sub_id with (q := None). now apply no_lt_no_tag.
Qed.

(** X15: after the tag substitution of [html_to_text] no tag is left: the
    pattern has no match in the result, a second substitution changes
    nothing, and a text without [<] is returned as it is. *)
Theorem strip_tags_leaves_no_tag (h : string) :
  search RE_TAG (re_sub RE_TAG " " h) = None /\
  re_sub RE_TAG " " (re_sub RE_TAG " " h) = re_sub RE_TAG " " h /\
  (contains "<" h = false -> re_sub RE_TAG " " h = h).
Proof.
  assert (H : search RE_TAG (re_sub RE_TAG " " h) = None)
    by (apply (@strip_tags_no_tag_left (String.length h)); lia).
  split; [exact H|]. split.
  - unfold re_sub at 1. now apply no_match_sub_id with (q := None).
  - intros Hlt. unfold re_sub.
    apply no_match_sub_id with (q := None). now apply no_lt_no_tag.
Qed.

Lemma strip_tags_leaves_no_tag_witness :
  re_sub RE_TAG " " "2 > 1 and a&b" = "2 > 1 and a&b".
Proof.
  apply (proj2 (proj2 (strip_tags_leaves_no_tag "2 > 1 and a&b"))).
  reflexivity.
Defined.

(** X16: for a text without an ampersand, which [html.unescape] returns as
    it is, the text that [html_to_text] gives has no tag left and no white
    space other than single spaces; when it has no [<] either, only its
    white space is collapsed. *)
Theorem html_to_text_clean (L : stdlib) (h : string) :
  (forall s, contains "&" s = false -> unescape L s = s) ->
  contains "&" h = false ->
  html_to_text L h = re_sub RE_SPACES " " (re_sub RE_TAG " " h) /\
  squeezed (html_to_text L h) = true /\
  (contains "<" h = false -> html_to_text L h = re_sub RE_SPACES " " h).
Proof.
  intros Hun Hamp.
  assert (E : html_to_text L h = re_sub RE_SPACES " " (re_sub RE_TAG " " h)).
  { unfold html_to_text. apply Hun. apply amp_free_spec.
    apply amp_free_spec in Hamp. unfold re_sub.
    apply sub_from_all_in; [reflexivity|]. now apply sub_from_all_in. }
  split; [exact E|]. split.
  - rewrite E. apply collapse_squeezed.
  - intros Hlt. rewrite E. now rewrite strip_tags_without_lt.
Qed.

Lemma html_to_text_clean_witness :
  html_to_text example_lib "<p>Out   for<br/>delivery</p>"
  = re_sub RE_SPACES " " (re_sub RE_TAG " " "<p>Out   for<br/>delivery</p>")
  /\ squeezed (html_to_text example_lib "<p>Out   for<br/>delivery</p>") = true
  /\ (contains "<" "<p>Out   for<br/>delivery</p>" = false ->
      html_to_text example_lib "<p>Out   for<br/>delivery</p>"
      = re_sub RE_SPACES " " "<p>Out   for<br/>delivery</p>").
Proof.
  apply html_to_text_clean; reflexivity.
Defined.

(** ** The whole run *)

Lemma rows_written_map (written : list OutputRecord) (tail : list event) :
  rows_written (map (fun o => RowWritten (cells_of o)) written ++ tail)
  = (map cells_of written ++ rows_written tail)%list.
Proof.
  induction written as [|o w IH]; simpl; [reflexivity | now rewrite IH].
Qed.

(** The seven ways a run can go. *)
Lemma main_cases (cfg : settings) (net : network) (L : stdlib) :
  let url := or_else (SHEET_CSV_URL cfg) "" in
  let email := or_else (IMAP_EMAIL cfg) "" in
  let password := or_else (IMAP_APP_PASSWORD cfg) "" in
  (url = "" /\ main cfg net L = ([Stderr "Missing SHEET_CSV_URL."], Exit 1))
  \/
  (url <> "" /\ read_sheet net url = None /\
   main cfg net L = ([], Uncaught None))
  \/
  (exists csv_rows,
      url <> "" /\ read_sheet net url = Some csv_rows /\
      ((fetch_sheet_rows csv_rows = [] /\
        main cfg net L
        = ([SheetRead url; Stderr "No rows from sheet CSV."], Exit 1))
       \/
       (fetch_sheet_rows csv_rows <> [] /\
        (email = "" \/ password = "") /\
        main cfg net L
        = ([SheetRead url; Stderr "Missing IMAP_EMAIL/IMAP_APP_PASSWORD."],
           Exit 1))
       \/
       (fetch_sheet_rows csv_rows <> [] /\ email <> "" /\ password <> "" /\
        open_mailbox net email password (MAILBOX cfg) = None /\
        main cfg net L = ([SheetRead url], Uncaught None))
       \/
       (exists imap,
           fetch_sheet_rows csv_rows <> [] /\ email <> "" /\ password <> "" /\
           open_mailbox net email password (MAILBOX cfg) = Some imap /\
           let written := fst (main_loop L imap (fetch_sheet_rows csv_rows)) in
           let file := (FileOpened :: RowWritten header_cells
                          :: map (fun o => RowWritten (cells_of o)) written)%list
           in
           (snd (main_loop L imap (fetch_sheet_rows csv_rows)) = Ok tt /\
            main cfg net L
            = ((SheetRead url :: MailboxOpened email (MAILBOX cfg) :: file
                  ++ [FileClosed; LoggedOut; Stdout "Wrote data/status.csv"])%list,
               Finished)
            \/
            exists e,
              snd (main_loop L imap (fetch_sheet_rows csv_rows)) = Raise e /\
              main cfg net L
              = ((SheetRead url :: MailboxOpened email (MAILBOX cfg) :: file
                    ++ [FileClosed])%list,
                 Uncaught (Some e)))))).
Proof.
  cbv zeta. unfold main, imap_connect.
  destruct (or_else (SHEET_CSV_URL cfg) "") as [|c url] eqn:Eu;
    [left; auto|]. right. cbn [nonempty negb].
  destruct (read_sheet net (String c url)) as [csv_rows|] eqn:Er;
    [|left; repeat split; discriminate].
  right. exists csv_rows. split; [discriminate|]. split; [reflexivity|].
  destruct (fetch_sheet_rows csv_rows) as [|r rows] eqn:Ef; [left; auto|].
  right.
  destruct (or_else (IMAP_EMAIL cfg) "") as [|c1 email] eqn:E1;
    [left; repeat split; [discriminate | now left]|].
  destruct (or_else (IMAP_APP_PASSWORD cfg) "") as [|c2 pw] eqn:E2;
    [left; repeat split; [discriminate | now right]|].
  right. cbn [nonempty andb].
  destruct (open_mailbox net _ _ _) as [imap|] eqn:Eo;
    [|left; repeat split; discriminate].
  right. exists imap.
  split; [discriminate|]. split; [discriminate|]. split; [discriminate|].
  split; [reflexivity|]. cbv zeta.
  destruct (main_loop L imap (r :: rows)) as [written [[]|e]]; cbn [fst snd].
  - left. split; [reflexivity|]. cbn [app]. rewrite <- !app_assoc.
    reflexivity.
  - right. exists e. split; reflexivity.
Qed.

Lemma not_written_row (ev : event) (written : list OutputRecord)
      (tail : list event) :
  (forall cells, ev <> RowWritten cells) ->
  In ev (map (fun o => RowWritten (cells_of o)) written ++ tail) ->
  In ev tail.
Proof.
  intros Hev H. apply in_app_or in H. destruct H as [H | H]; [|exact H].
  apply in_map_iff in H. destruct H as [o [Ho _]].
  now destruct (Hev (cells_of o)).
Qed.

(** X17: the run logs out of the mailbox exactly when it finishes; when it
    exits with a code, the code is 1, one message has been printed to the
    standard error and no file has been opened; and when it opens the file
    it closes it, also when the loop is left by an exception. *)
Theorem logout_only_when_finished (cfg : settings) (net : network)
        (L : stdlib) :
  (In LoggedOut (fst (main cfg net L)) <-> snd (main cfg net L) = Finished) /\
  (forall code,
      snd (main cfg net L) = Exit code ->
      code = 1 /\ ~ In FileOpened (fst (main cfg net L)) /\
      exists msg, In (Stderr msg) (fst (main cfg net L))) /\
  (In FileOpened (fst (main cfg net L)) ->
   In FileClosed (fst (main cfg net L))).
Proof.
  destruct (main_cases cfg net L)
    as [[_ ->] | [[_ [_ ->]] | [csv_rows [_ [_ H]]]]]; cbn [fst snd].
  - split; [|split].
    + split; [intros [H | []]; discriminate H | discriminate].
    + intros code [= <-]. split; [reflexivity|]. split.
      * intros [H | []]. discriminate H.
      * eexists. left. reflexivity.
    + intros [H | []]. discriminate H.
  - split; [|split].
    + split; [intros [] | discriminate].
    + discriminate.
    + intros [].
  - destruct H as [[_ ->] | [[_ [_ ->]] | [[_ [_ [_ [_ ->]]]] | H]]];
      cbn [fst snd].
    + split; [|split].
      * split; [intros [H | [H | []]]; discriminate H | discriminate].
      * intros code [= <-]. split; [reflexivity|]. split.
        -- intros [H | [H | []]]; discriminate H.
        -- eexists. right. left. reflexivity.
      * intros [H | [H | []]]; discriminate H.
    + split; [|split].
      * split; [intros [H | [H | []]]; discriminate H | discriminate].
      * intros code [= <-]. split; [reflexivity|]. split.
        -- intros [H | [H | []]]; discriminate H.
        -- eexists. right. left. reflexivity.
      * intros [H | [H | []]]; discriminate H.
    + split; [|split].
      * split; [intros [H | []]; discriminate H | discriminate].
      * discriminate.
      * intros [H | []]. discriminate H.
    + destruct H as [imap [_ [_ [_ [_ H]]]]]. cbv zeta in H.
      destruct H as [[_ ->] | [e [_ ->]]]; cbn [fst snd].
      * split; [|split].
        -- split; [reflexivity|]. intros _. do 4 right.
           apply in_or_app. right. simpl. tauto.
        -- discriminate.
        -- intros _. do 4 right. apply in_or_app. right. simpl. tauto.
      * split; [|split].
        -- split; [|discriminate].
           intros [H | [H | [H | [H | H]]]]; try discriminate H.
           apply not_written_row in H; [|discriminate].
           destruct H as [H | []]. discriminate H.
        -- discriminate.
        -- intros _. do 4 right. apply in_or_app. right. simpl. tauto.
Qed.

(** X18: a file that the run opens holds the header row and then the rows
    that the loop wrote, for the rows of the sheet and the mailbox of the
    settings; the file is opened only when the sheet has a data row and the
    account and its password are set. *)
Theorem file_holds_header_and_rows (cfg : settings) (net : network)
        (L : stdlib) :
  In FileOpened (fst (main cfg net L)) ->
  exists csv_rows imap,
    read_sheet net (or_else (SHEET_CSV_URL cfg) "") = Some csv_rows /\
    fetch_sheet_rows csv_rows <> [] /\
    open_mailbox net (or_else (IMAP_EMAIL cfg) "")
                 (or_else (IMAP_APP_PASSWORD cfg) "") (MAILBOX cfg)
    = Some imap /\
    or_else (IMAP_EMAIL cfg) "" <> "" /\
    or_else (IMAP_APP_PASSWORD cfg) "" <> "" /\
    rows_written (fst (main cfg net L))
    = header_cells
        :: map cells_of (fst (main_loop L imap (fetch_sheet_rows csv_rows))).
Proof.
  destruct (main_cases cfg net L)
    as [[_ ->] | [[_ [_ ->]] | [csv_rows [_ [Hr H]]]]]; cbn [fst snd].
  - intros [H | []]. discriminate H.
  - intros [].
  - destruct H as [[_ ->] | [[_ [_ ->]] | [[_ [_ [_ [_ ->]]]] | H]]];
      cbn [fst snd];
      try (intros [H | [H | []]]; discriminate H);
      try (intros [H | []]; discriminate H).
    destruct H as [imap [Hrows [He [Hp [Ho H]]]]]. cbv zeta in H.
    intros _. exists csv_rows, imap.
    split; [exact Hr|]. split; [exact Hrows|]. split; [exact Ho|].
    split; [exact He|]. split; [exact Hp|].
    destruct H as [[_ ->] | [e [_ ->]]]; cbn [fst snd rows_written app];
      rewrite rows_written_map; simpl; now rewrite app_nil_r.
Qed.

Lemma logout_only_when_finished_witness :
  In FileClosed (fst (main example_settings example_network example_lib)).
Proof.
  apply (proj2 (proj2 (logout_only_when_finished
                         example_settings example_network example_lib))).
  vm_compute. tauto.
Defined.

Lemma file_holds_header_and_rows_witness :
  exists csv_rows imap,
    read_sheet example_network (or_else (SHEET_CSV_URL example_settings) "")
    = Some csv_rows /\
    fetch_sheet_rows csv_rows <> [] /\
    open_mailbox example_network (or_else (IMAP_EMAIL example_settings) "")
                 (or_else (IMAP_APP_PASSWORD example_settings) "")
                 (MAILBOX example_settings)
    = Some imap /\
    or_else (IMAP_EMAIL example_settings) "" <> "" /\
    or_else (IMAP_APP_PASSWORD example_settings) "" <> "" /\
    rows_written (fst (main example_settings example_network example_lib))
    = header_cells
        :: map cells_of
               (fst (main_loop example_lib imap (fetch_sheet_rows csv_rows))).
Proof.
  apply file_holds_header_and_rows. vm_compute. tauto.
Defined.

(** ** Body extraction: the order of the parts and the example *)

Lemma walk_multipart (hs : list (string * string)) (ct : string)
      (cs : option string) (ps : list message) :
  walk (Multipart hs ct cs ps) = Multipart hs ct cs ps :: flat_map walk ps.
Proof. reflexivity. Qed.

(** The first [>] of a text that ends with the markup stands in the text
    before the markup, or is that of its [<b>]. *)
Lemma gt_first (rest : string) :
  forall T pre r,
    all_in not_gt T = true ->
    T ++ String ">" r = pre ++ "<b>" ++ rest ->
    String.length T < String.length pre \/ T = pre ++ "<b".
Proof.
  induction T as [|t T IH]; intros pre r Hall E.
  - destruct pre as [|p pre]; simpl in E; [discriminate E|].
    left. simpl. lia.
  - simpl in Hall. apply andb_true_iff in Hall. destruct Hall as [Ht Hall].
    destruct pre as [|p pre]; simpl in E; injection E as -> E.
    + right. destruct T as [|t2 T]; simpl in E; [discriminate E|].
      injection E as -> E. simpl in Hall.
      destruct T as [|t3 T]; [reflexivity|].
      simpl in E. injection E as -> _. simpl in Hall. discriminate Hall.
    + destruct (IH pre r Hall E) as [H | ->]; [left; simpl; lia | now right].
Qed.

(** The tag substitution, through a text [pre] and the [<b>] after it: the
    [>] of that tag ends a match, whose space is the last thing put out. *)
Lemma strip_reaches_b (rest : string) :
  forall pre skip prev,
    skip <= String.length pre \/ skip = String.length pre + 3 ->
    exists out,
      sub_from RE_TAG " " skip prev (pre ++ "<b>" ++ rest)
      = out ++ sub_from RE_TAG " " 0 (Some ">"%char) rest /\
      (skip <= String.length pre -> exists out', out = out' ++ " ") /\
      (skip = String.length pre + 3 -> out = "").
Proof.
  induction pre as [|a pre IH]; intros skip prev Hs.
  - destruct Hs as [Hs | ->].
    + simpl in Hs. assert (skip = 0) as -> by lia.
      exists " ". split; [|split; [now exists "" | simpl; lia]].
      change ("" ++ "<b>" ++ rest) with (String "<" ("b" ++ String ">" rest)).
      cbn [sub_from].
      rewrite tag_match_exists by (discriminate || reflexivity).
      reflexivity.
    + exists "". split; [reflexivity|]. split; [simpl; lia | reflexivity].
  - change (String a pre ++ "<b>" ++ rest)
      with (String a (pre ++ "<b>" ++ rest)).
    set (body := pre ++ "<b>" ++ rest) in *.
    destruct skip as [|k].
    + cbn [sub_from].
      destruct (match_at RE_TAG prev (String a body)) as [m|] eqn:Em.
      * apply tag_match_nonempty in Em.
        destruct Em as [c [tok [r [Es [Hall ->]]]]].
        injection Es as _ Es. symmetry in Es.
        pose proof (@gt_first rest (String c tok) pre r Hall Es) as Hg.
        clear Es. rename Hg into Es.
        cbn [String.length append].
        destruct (IH (S (String.length (tok ++ ">"))) (Some a))
          as [out [Hout [Hin Hend]]].
        { destruct Es as [Hl | Et].
          - left. simpl in Hl. rewrite length_app_s. simpl. lia.
          - right. apply (f_equal String.length) in Et.
            rewrite !length_app_s in *. simpl in *. lia. }
        exists (String " " out). rewrite Hout. split; [reflexivity|].
        split; [|simpl; lia]. intros _.
        destruct Es as [Hl | Et].
        -- destruct Hin as [out' ->].
           { simpl in Hl. rewrite length_app_s. simpl. lia. }
           now exists (String " " out').
        -- rewrite Hend; [now exists ""|].
           apply (f_equal String.length) in Et.
           rewrite !length_app_s in *. simpl in *. lia.
      * destruct (IH 0 (Some a)) as [out [Hout [Hin _]]]; [left; lia|].
        exists (String a out). rewrite Hout. split; [reflexivity|].
        split; [|simpl; lia]. intros _.
        destruct Hin as [out' ->]; [lia|]. now exists (String a out').
    + cbn [sub_from].
      destruct (IH k (Some a)) as [out [Hout [Hin Hend]]].
      { simpl in Hs. lia. }
      exists out. split; [exact Hout|]. simpl. split.
      * intros H. apply Hin. lia.
      * intros H. apply Hend. lia.
Qed.

Lemma strip_tags_sentence_after_space (pre post : string) :
  exists out1 out2,
    re_sub RE_TAG " " (pre ++ shipped_html ++ post)
    = out1 ++ " " ++ "Your order has shipped" ++ String " " out2.
Proof.
  unfold re_sub.
  destruct (@strip_reaches_b ("Your order has shipped</b>" ++ post)
              pre 0 None) as [out [Hout [Hin _]]]; [left; lia|].
  destruct Hin as [out1 ->]; [lia|].
  exists out1, (sub_from RE_TAG " " 0 (Some ">"%char) post).
  change (pre ++ shipped_html ++ post)
    with (pre ++ "<b>" ++ "Your order has shipped</b>" ++ post).
  rewrite Hout, app_assoc_s. f_equal.
Qed.

(** Collapsing keeps a space that stands before a character that is not
    white space. *)
Lemma squeeze_space_before (s : string) :
  match head s with Some c => is_space c = false | None => True end ->
  forall (a : string) (r : bool),
    exists u,
      (if r then " " else "") ++ squeeze r (a ++ String " " s)
      = u ++ " " ++ squeeze false s.
Proof.
  intros Hs. induction a as [|c a IH]; intros r.
  - exists "". simpl. rewrite (squeeze_after_run s Hs). now destruct r.
  - simpl. destruct (is_space c) eqn:Ec.
    + destruct (IH true) as [u Hu]. exists u. destruct r; exact Hu.
    + destruct (IH false) as [u Hu]. simpl in Hu.
      exists ((if r then " " else "") ++ String c u).
      rewrite Hu. destruct r; reflexivity.
Qed.

Lemma collapse_sentence_after_space (out1 out2 : string) :
  exists u v,
    re_sub RE_SPACES " "
           (out1 ++ " " ++ "Your order has shipped" ++ String " " out2)
    = u ++ " " ++ "Your order has shipped" ++ String " " v.
Proof.
  unfold re_sub. rewrite (proj1 (sub_spaces_squeeze _) None).
  destruct (@squeeze_space_before
              ("Your order has shipped" ++ String " " out2) eq_refl
              out1 false) as [u Hu].
  exists u, (squeeze true out2). exact Hu.
Qed.

Section BodyOrder.

Variable L : stdlib.

(** [html.unescape] returns a text without an ampersand as it is, and no
    character reference holds a space, so that the two sides of a space
    are unescaped each for itself. *)
Lemma unescape_sentence (u v : string) :
  (forall s, contains "&" s = false -> unescape L s = s) ->
  (forall x y,
      unescape L (x ++ " " ++ y) = unescape L x ++ " " ++ unescape L y) ->
  unescape L (u ++ " " ++ "Your order has shipped" ++ String " " v)
  = unescape L u ++ " " ++ "Your order has shipped" ++ " " ++ unescape L v.
Proof.
  intros Hun Hsp.
  change (u ++ " " ++ "Your order has shipped" ++ String " " v)
    with (u ++ " " ++ ("Your" ++ " " ++ ("order" ++ " " ++
            ("has" ++ " " ++ ("shipped" ++ " " ++ v))))).
  rewrite !Hsp.
  rewrite (Hun "Your"), (Hun "order"), (Hun "has"), (Hun "shipped")
    by reflexivity.
  reflexivity.
Qed.

Lemma get_body_one_html_part (hs : list (string * string)) (ct : string)
      (cs : option string) (part : message) (text : string) :
  is_multipart part = false ->
  get_content_type part = "text/html" ->
  decode_part L part = Ok text ->
  get_body L (Multipart hs ct cs [part])
  = Ok (unescape L (re_sub RE_SPACES " " (re_sub RE_TAG " " text))).
Proof.
  intros Hleaf Hc Hd.
  assert (Hw : walk (Multipart hs ct cs [part])
               = ([Multipart hs ct cs [part]] ++ part :: [])%list).
  { destruct part; [reflexivity | discriminate Hleaf]. }
  apply (@get_body_first_html L (Multipart hs ct cs [part])
           [Multipart hs ct cs [part]] part [] text); trivial.
  - rewrite Hw. intros q [<- | [<- | []]] Hq; [reflexivity|].
    rewrite Hc in Hq. discriminate Hq.
  - intros q [<- | []] _. reflexivity.
Qed.

Lemma walk_in_tree (hs : list (string * string)) (ct : string)
      (cs : option string) (before after inner_before inner_after : list message)
      (p q : message) :
  walk p = (inner_before ++ q :: inner_after)%list ->
  walk (Multipart hs ct cs (before ++ p :: after))
  = ((Multipart hs ct cs (before ++ p :: after)
        :: flat_map walk before ++ inner_before)
       ++ q :: (inner_after ++ flat_map walk after))%list.
Proof.
  intros Hp. rewrite walk_multipart, flat_map_app. simpl. rewrite Hp.
  simpl. f_equal. now rewrite <- !app_assoc.
Qed.

Lemma none_decodes_tree (ctype : string) (hs : list (string * string))
      (ct : string) (cs : option string) (ps : list message)
      (l1 l2 : list message) :
  none_decodes L ctype l1 -> none_decodes L ctype l2 ->
  none_decodes L ctype (Multipart hs ct cs ps :: l1 ++ l2).
Proof.
  intros H1 H2 q [<- | Hin] Hq; [reflexivity|].
  apply in_app_or in Hin. destruct Hin as [Hin | Hin]; auto.
Qed.

(** C2, amended: no exception leaves [get_body].  The parts of a multipart
    message are visited in the order of [walk], which is the message, then
    each of its parts with all that this part holds, before the next part.
    The body is the text of the first part in that order that is declared
    text/plain and decodes, also when this part lies inside a nested
    multipart; when no text/plain part decodes it is the text of the first
    text/html part that decodes, with the tags replaced by spaces, the
    white space collapsed and the result passed to [unescape]; when none of
    either kind decodes it is empty.  A message that is not multipart gives
    its decoded payload, or the empty string when the decoding fails.  A
    multipart message whose only part is the HTML
    [<b>Your order has shipped</b>] gives " Your order has shipped ", and
    when that markup stands anywhere in the only, HTML, part, the body
    contains "Your order has shipped", with its capital letter; what
    contains "your order has shipped" is the body in lower case. *)
Theorem get_body_priority :
  (forall msg, exists text, get_body L msg = Ok text) /\
  (forall hs ct cs payload,
      walk (Leaf hs ct cs payload) = [Leaf hs ct cs payload]) /\
  (forall hs ct cs ps,
      walk (Multipart hs ct cs ps)
      = Multipart hs ct cs ps :: flat_map walk ps) /\
  (forall msg before p after text,
      is_multipart msg = true ->
      walk msg = (before ++ p :: after)%list ->
      none_decodes L "text/plain" before ->
      get_content_type p = "text/plain" -> decode_part L p = Ok text ->
      get_body L msg = Ok text) /\
  (forall hs ct cs before p after inner_before q inner_after text,
      walk p = (inner_before ++ q :: inner_after)%list ->
      none_decodes L "text/plain" (flat_map walk before) ->
      none_decodes L "text/plain" inner_before ->
      get_content_type q = "text/plain" -> decode_part L q = Ok text ->
      get_body L (Multipart hs ct cs (before ++ p :: after)) = Ok text) /\
  (forall msg before p after text,
      is_multipart msg = true ->
      none_decodes L "text/plain" (walk msg) ->
      walk msg = (before ++ p :: after)%list ->
      none_decodes L "text/html" before ->
      get_content_type p = "text/html" -> decode_part L p = Ok text ->
      get_body L msg
      = Ok (unescape L (re_sub RE_SPACES " " (re_sub RE_TAG " " text)))) /\
  (forall hs ct cs before p after inner_before q inner_after text,
      walk p = (inner_before ++ q :: inner_after)%list ->
      none_decodes L "text/plain" (flat_map walk (before ++ p :: after)) ->
      none_decodes L "text/html" (flat_map walk before) ->
      none_decodes L "text/html" inner_before ->
      get_content_type q = "text/html" -> decode_part L q = Ok text ->
      get_body L (Multipart hs ct cs (before ++ p :: after))
      = Ok (unescape L (re_sub RE_SPACES " " (re_sub RE_TAG " " text)))) /\
  (forall msg,
      is_multipart msg = true ->
      none_decodes L "text/plain" (walk msg) ->
      none_decodes L "text/html" (walk msg) ->
      get_body L msg = Ok "") /\
  (forall msg,
      is_multipart msg = false ->
      get_body L msg
      = match decode_part L msg with Ok text => Ok text | Raise _ => Ok "" end)
  /\
  (forall hs ct cs part,
      (forall s, contains "&" s = false -> unescape L s = s) ->
      is_multipart part = false ->
      get_content_type part = "text/html" ->
      decode_part L part = Ok "<b>Your order has shipped</b>" ->
      get_body L (Multipart hs ct cs [part]) = Ok " Your order has shipped "
      /\ Substring "Your order has shipped" " Your order has shipped "
      /\ Substring "your order has shipped"
                   (lower " Your order has shipped ")) /\
  (forall hs ct cs part pre post,
      (forall s, contains "&" s = false -> unescape L s = s) ->
      (forall x y,
          unescape L (x ++ " " ++ y) = unescape L x ++ " " ++ unescape L y) ->
      is_multipart part = false ->
      get_content_type part = "text/html" ->
      decode_part L part = Ok (pre ++ shipped_html ++ post) ->
      exists body,
        get_body L (Multipart hs ct cs [part]) = Ok body /\
        Substring "Your order has shipped" body /\
        Substring "your order has shipped" (lower body)).
Proof.
  split; [exact (@get_body_returns L)|].
  split; [reflexivity|].
  split; [exact walk_multipart|].
  split; [exact (@get_body_first_plain L)|].
  split.
  { intros hs ct cs before p after inner_before q inner_after text
           Hp Hb Hi Hc Hd.
    apply (@get_body_first_plain L
             (Multipart hs ct cs (before ++ p :: after))
             (Multipart hs ct cs (before ++ p :: after)
                :: flat_map walk before ++ inner_before)%list
             q (inner_after ++ flat_map walk after)%list text);
      trivial.
    - now apply walk_in_tree.
    - now apply none_decodes_tree. }
  split; [exact (@get_body_first_html L)|].
  split.
  { intros hs ct cs before p after inner_before q inner_after text
           Hp Hplain Hb Hi Hc Hd.
    apply (@get_body_first_html L
             (Multipart hs ct cs (before ++ p :: after))
             (Multipart hs ct cs (before ++ p :: after)
                :: flat_map walk before ++ inner_before)%list
             q (inner_after ++ flat_map walk after)%list text);
      trivial.
    - rewrite walk_multipart. intros m [<- | Hin] Hm; [reflexivity|].
      now apply Hplain.
    - now apply walk_in_tree.
    - now apply none_decodes_tree. }
  split; [exact (@get_body_nothing_decodes L)|].
  split.
  { intros msg Hm. unfold get_body. rewrite Hm.
    now destruct (decode_part L msg). }
  split.
  { intros hs ct cs part Hun Hleaf Hc Hd.
    split; [|split; apply contains_spec; reflexivity].
    rewrite (get_body_one_html_part hs ct cs part Hleaf Hc Hd).
    change (re_sub RE_SPACES " "
              (re_sub RE_TAG " " "<b>Your order has shipped</b>"))
      with " Your order has shipped ".
    now rewrite Hun. }
  intros hs ct cs part pre post Hun Hsp Hleaf Hc Hd.
  rewrite (get_body_one_html_part hs ct cs part Hleaf Hc Hd).
  destruct (strip_tags_sentence_after_space pre post) as [o1 [o2 ->]].
  destruct (collapse_sentence_after_space o1 o2) as [u [v ->]].
  rewrite (unescape_sentence u v Hun Hsp).
  assert (Hsub : Substring "Your order has shipped"
                   (unescape L u ++ " " ++ "Your order has shipped" ++ " "
                      ++ unescape L v)).
  { exists (unescape L u ++ " "), (" " ++ unescape L v).
    now rewrite app_assoc_s. }
  eexists. split; [reflexivity|]. split; [exact Hsub|].
  now apply Substring_lower in Hsub.
Qed.

End BodyOrder.

(** C2, as stated: the HTML example gives a body that does not contain
    "your order has shipped".  [html_to_text] keeps the case of the
    letters: the body is " Your order has shipped ", in which the sentence
    stands with its capital letter only. *)
Lemma html_body_keeps_its_case :
  get_body example_lib msg_html = Ok " Your order has shipped " /\
  ~ Substring "your order has shipped" " Your order has shipped ".
Proof.
  split; [reflexivity|].
  intros H. apply contains_spec in H. discriminate H.
Qed.

Lemma get_body_priority_witness :
  get_body example_lib msg_nested = Ok "inner plain" /\
  walk msg_nested
  = [msg_nested;
     Multipart [("Content-Type", "multipart/alternative; boundary=i")]
               "multipart/alternative" None
               [Leaf [("Content-Type", "text/html; charset=us-ascii")]
                     "text/html" (Some "us-ascii") (b "<p>inner html</p>");
                Leaf [("Content-Type", "text/plain; charset=us-ascii")]
                     "text/plain" (Some "us-ascii") (b "inner plain")];
     Leaf [("Content-Type", "text/html; charset=us-ascii")]
          "text/html" (Some "us-ascii") (b "<p>inner html</p>");
     Leaf [("Content-Type", "text/plain; charset=us-ascii")]
          "text/plain" (Some "us-ascii") (b "inner plain");
     Leaf [("Content-Type", "text/plain; charset=us-ascii")]
          "text/plain" (Some "us-ascii") (b "outer plain")] /\
  get_body example_lib msg_html = Ok " Your order has shipped " /\
  (exists body,
      get_body example_lib
               (Multipart [("Content-Type", "multipart/alternative")]
                          "multipart/alternative" None
                          [Leaf [("Content-Type", "text/html")] "text/html"
                                None
                                (b "<p>Hi  Ann,</p><b>Your order has shipped</b>!")])
      = Ok body /\
      Substring "Your order has shipped" body /\
      Substring "your order has shipped" (lower body)) /\
  get_body example_lib msg_shipped
  = Ok "Tracking number 1Z999AA10123456784 is on the way .".
Proof.
  pose proof (get_body_priority example_lib)
    as [_ [_ [Hwalk [_ [Hnested [_ [_ [_ [Hsingle [Hhtml Hany]]]]]]]]]].
  split.
  { apply (Hnested
             [("Subject", "Order");
              ("Content-Type", "multipart/mixed; boundary=o")]
             "multipart/mixed" None []
             (Multipart [("Content-Type", "multipart/alternative; boundary=i")]
                "multipart/alternative" None
                [Leaf [("Content-Type", "text/html; charset=us-ascii")]
                      "text/html" (Some "us-ascii") (b "<p>inner html</p>");
                 Leaf [("Content-Type", "text/plain; charset=us-ascii")]
                      "text/plain" (Some "us-ascii") (b "inner plain")])
             [Leaf [("Content-Type", "text/plain; charset=us-ascii")]
                   "text/plain" (Some "us-ascii") (b "outer plain")]
             [Multipart [("Content-Type", "multipart/alternative; boundary=i")]
                "multipart/alternative" None
                [Leaf [("Content-Type", "text/html; charset=us-ascii")]
                      "text/html" (Some "us-ascii") (b "<p>inner html</p>");
                 Leaf [("Content-Type", "text/plain; charset=us-ascii")]
                      "text/plain" (Some "us-ascii") (b "inner plain")];
              Leaf [("Content-Type", "text/html; charset=us-ascii")]
                   "text/html" (Some "us-ascii") (b "<p>inner html</p>")]
             (Leaf [("Content-Type", "text/plain; charset=us-ascii")]
                   "text/plain" (Some "us-ascii") (b "inner plain"))
             []
             "inner plain"); try reflexivity.
    - intros q [].
    - intros q [<- | [<- | []]] Hq; discriminate Hq. }
  split.
  { unfold msg_nested. rewrite Hwalk. reflexivity. }
  split.
  { apply (Hhtml [("Subject", "Order update");
                  ("Content-Type", "multipart/alternative; boundary=x")]
                 "multipart/alternative" None
                 (Leaf [("Content-Type", "text/html; charset=iso-8859-1")]
                       "text/html" (Some "iso-8859-1")
                       (b "<b>Your order has shipped</b>")));
      reflexivity. }
  split.
  { apply (Hany [("Content-Type", "multipart/alternative")]
                "multipart/alternative" None
                (Leaf [("Content-Type", "text/html")] "text/html" None
                      (b "<p>Hi  Ann,</p><b>Your order has shipped</b>!"))
                "<p>Hi  Ann,</p>" "!");
      reflexivity. }
  rewrite (Hsingle msg_shipped eq_refl). reflexivity.
Defined.
